(** * Prescription verifier: the drug database and the rule engine

    A shallow embedding of [model.py] (classes [DrugDB], [GraniteClient],
    [Analyzer]) and the properties of its matching and rule evaluation.

    Conventions of the embedding.
    - A Python [str] is a [string]; names are taken in the ASCII range, where
      [str.lower], [str.strip] and the ordering of [str] coincide with the
      byte-wise functions below.
    - A Python [int] is a [Z].
    - A JSON object used as a record is a [Record]; a key read with [d[k]] is
      a mandatory field, a key read with [d.get(k)] is an [option] field.
    - A JSON object used as a dictionary is a [gmap] with [string] keys.
    - [None] is [None]; Python truthiness is written out where the code
      relies on it.
    - Names are those of the source. Where the source uses one key in two
      dictionaries the field carries the name of its record as a prefix
      ([warning_max_daily_mg], [result_interactions]), and the key
      "alternatives" of the dataset is [alternatives_tbl], next to the method
      [DrugDB.alternatives].
    - [utils.age_group], [utils.parse_prescription] and the text-generation
      pipeline are collaborators of this module: they are parameters. *)

From Stdlib Require Import ZArith String Ascii.
From stdpp Require Import base option list gmap strings sets.

Local Open Scope Z_scope.
Set Warnings "-clear-no-such-hyp".

(** ** Strings *)

Module Str.

(** [c.lower()] on one character of the ASCII range. *)
Definition lower_ascii (c : ascii) : ascii :=
  let n := N_of_ascii c in
  if ((65 <=? n) && (n <=? 90))%N then ascii_of_N (n + 32) else c.

(** [s.lower()] *)
Fixpoint lower (s : string) : string :=
  match s with
  | EmptyString => EmptyString
  | String c s' => String (lower_ascii c) (lower s')
  end.

(** [c.isspace()] on the ASCII range: tab, line feed, vertical tab, form
    feed, carriage return, the four separators 28-31 and the space. *)
Definition is_space (c : ascii) : bool :=
  let n := N_of_ascii c in
  (((9 <=? n) && (n <=? 13)) || ((28 <=? n) && (n <=? 32)))%N.

(** [s.lstrip()] *)
Fixpoint lstrip (s : string) : string :=
  match s with
  | EmptyString => EmptyString
  | String c s' => if is_space c then lstrip s' else s
  end.

(** [s.rstrip()] *)
Fixpoint rstrip (s : string) : string :=
  match s with
  | EmptyString => EmptyString
  | String c s' =>
      match rstrip s' with
      | EmptyString => if is_space c then EmptyString else String c EmptyString
      | r => String c r
      end
  end.

(** [s.strip()] *)
Definition strip (s : string) : string := rstrip (lstrip s).

(** [a >= b] on [str]: lexicographic on the characters. *)
Definition geb (a b : string) : bool := negb (String.ltb a b).

End Str.

(** ** Python truthiness *)

(** [bool(x)] for an [Optional[int]]: false on [None] and on [0]. *)
Definition truthy_int (x : option Z) : bool :=
  match x with
  | Some z => negb (z =? 0)
  | None => false
  end.

(** [x or y] for [Optional[str]] on the left and [str] on the right. *)
Definition or_str (x : option string) (y : string) : string :=
  match x with
  | Some s => if bool_decide (s = EmptyString) then y else s
  | None => y
  end.

(** ** The data model *)

(** One element of [db["drugs"]]. *)
Record DrugRecord := {
  name : string;
  adult_dose : option string;
  child_dose : option string;
  aliases : option (list string)
}.

(** One element of [db["interactions"]]. *)
Record Interaction := {
  pair : list string;
  severity : string;
  note : string
}.

(** The document returned by [load_db]. *)
Record Database := {
  drugs : list DrugRecord;
  max_daily_dose_mg : option (gmap string (gmap string Z));
  interactions : list Interaction;
  alternatives_tbl : option (gmap string (list string))
}.

(** An element of [explicit_drugs], as the caller sends it. *)
Record RawEntry := {
  raw_drug : option string;
  raw_dose_mg : option Z;
  raw_frequency_per_day : option Z
}.

(** An element of the list [check] works on. *)
Record Entry := {
  drug : string;
  dose_mg : option Z;
  frequency_per_day : option Z
}.

(** A value of [recs]. *)
Record Guidance := {
  recommended_dose_for_age : option string;
  guidance_max_daily_mg : option Z
}.

(** An element of [warnings]. *)
Record Warning := {
  warning_drug : string;
  issue : string;
  computed_mg_per_day : Z;
  warning_max_daily_mg : Z
}.

(** The dictionary returned by [check]. *)
Record AnalysisResult := {
  drugs_parsed : list Entry;
  result_interactions : list Interaction;
  dosage_guidance : gmap string Guidance;
  warnings : list Warning;
  result_alternatives : gmap string (list string)
}.

#[global] Instance DrugRecord_eq_dec : EqDecision DrugRecord.
Proof. solve_decision. Defined.
#[global] Instance Interaction_eq_dec : EqDecision Interaction.
Proof. solve_decision. Defined.
#[global] Instance Entry_eq_dec : EqDecision Entry.
Proof. solve_decision. Defined.
#[global] Instance Guidance_eq_dec : EqDecision Guidance.
Proof. solve_decision. Defined.
#[global] Instance Warning_eq_dec : EqDecision Warning.
Proof. solve_decision. Defined.

(** ** class DrugDB *)

Module DrugDB.

(** [[d["name"] for d in self.db["drugs"]]] *)
Definition list_drugs (db : Database) : list string := name <$> drugs db.

(** [d.get("aliases", [])] *)
Definition alias_list (d : DrugRecord) : list string := default [] (aliases d).

(** The test of the loop of [normalize]:
    [d["name"].lower() == n or n in [a.lower() for a in d.get("aliases", [])]] *)
Definition matches (n : string) (d : DrugRecord) : bool :=
  bool_decide (Str.lower (name d) = n)
  || bool_decide (n ∈ Str.lower <$> alias_list d).

(** The loop of [normalize]: the first record that matches wins. *)
Fixpoint normalize_loop (n : string) (ds : list DrugRecord) : option string :=
  match ds with
  | [] => None
  | d :: ds' => if matches n d then Some (name d) else normalize_loop n ds'
  end.

Definition normalize (db : Database) (nm : string) : option string :=
  let n := Str.strip (Str.lower nm) in
  normalize_loop n (drugs db).

(** [next((x for x in self.db["drugs"] if x["name"] == drug), None)] *)
Fixpoint find_record (drug : string) (ds : list DrugRecord) : option DrugRecord :=
  match ds with
  | [] => None
  | x :: ds' => if bool_decide (name x = drug) then Some x else find_record drug ds'
  end.

(** [grp in ("child", "adolescent")] *)
Definition pediatric (grp : string) : bool :=
  bool_decide (grp ∈ ["child"%string; "adolescent"%string]).

(** [self.db.get("alternatives", {}).get(drug, [])] *)
Definition alternatives (db : Database) (drug : string) : list string :=
  default [] (default ∅ (alternatives_tbl db) !! drug).

Section WithAgeGroup.

(** [utils.age_group], the bracket classifier: its thresholds are
    configuration that the engine does not fix. *)
Variable age_group : Z -> string.

Definition default_dose_for_age (db : Database) (drug : string) (age : Z)
  : option string :=
  match find_record drug (drugs db) with
  | None => None
  | Some d =>
      let grp := age_group age in
      if pediatric grp then child_dose d else adult_dose d
  end.

Definition max_daily_mg (db : Database) (drug : string) (age : Z) : option Z :=
  match default ∅ (max_daily_dose_mg db) !! drug with
  | None => None
  | Some m =>
      if bool_decide (m = ∅) then None
      else
        let grp := age_group age in
        if pediatric grp then m !! "child"%string else m !! "adult"%string
  end.

End WithAgeGroup.

(** [set(p) == set([a, b])] *)
Definition same_pair (a b : string) (it : Interaction) : bool :=
  bool_decide ((list_to_set (pair it) : gset string) = list_to_set [a; b]).

(** The state of the two loops of [interactions_for]: [pairs] and [out]. *)
Definition scan_state : Type := gset (string * string) * list Interaction.

(** The body of the inner loop, for one [a] and one [b]. *)
Definition visit (tbl : list Interaction) (a b : string) (st : scan_state)
  : scan_state :=
  if Str.geb a b then st
  else if bool_decide ((a, b) ∈ st.1) then st
  else ({[ (a, b) ]} ∪ st.1, st.2 ++ filter (λ it, same_pair a b it) tbl).

Definition scan (tbl : list Interaction) (drugs : list string) : scan_state :=
  foldl (λ st a, foldl (λ st' b, visit tbl a b st') st drugs) (∅, []) drugs.

Definition interactions_for (db : Database) (drugs : list string)
  : list Interaction :=
  (scan (interactions db) drugs).2.

End DrugDB.

(** ** class GraniteClient *)

Module GraniteClient.

(** What [extract_drug_info] can return: a list, the generated text, or
    the dictionary [{"error": ...}]. *)
Inductive result :=
| RList (l : list Entry)
| RText (response : string)
| RError (msg : string).

Section WithPipe.

(** [self.pipe]: [None] when the model failed to load, otherwise the
    text-generation pipeline, which yields the generated text or raises. *)
Variable pipe : option (string -> string + string).

(** The f-string of [extract_drug_info]. *)
Definition prompt (text : string) : string :=
  String.append "
        Extract medicines from the following prescription text.
        Return JSON list with keys: drug, dose_mg, frequency_per_day.

        Prescription: "
        (String.append text "
        ").

Definition extract_drug_info (text : string) : result :=
  match pipe with
  | None => RList []
  | Some run =>
      match run (prompt text) with
      | inl response => RText response
      | inr e => RError e
      end
  end.

End WithPipe.

(** [granite_result and isinstance(granite_result, list)] *)
Definition nonempty_list (r : result) : option (list Entry) :=
  match r with
  | RList (e :: l) => Some (e :: l)
  | _ => None
  end.

End GraniteClient.

(** ** class Analyzer *)

Module Analyzer.

(** [bool(text)] for [Optional[str]] *)
Definition truthy_text (text : option string) : option string :=
  match text with
  | Some EmptyString => None
  | Some t => Some t
  | None => None
  end.

(** The body of the loop over [explicit_drugs]. *)
Definition clean (db : Database) (d : RawEntry) : Entry :=
  let raw := default EmptyString (raw_drug d) in
  let nm := or_str (DrugDB.normalize db raw) raw in
  {| drug := nm;
     dose_mg := raw_dose_mg d;
     frequency_per_day := raw_frequency_per_day d |}.

Definition issue_label : string := "Dose exceeds max daily limit".

(** [dose * freq if dose and freq else None] *)
Definition total_of (dose freq : option Z) : option Z :=
  if truthy_int dose && truthy_int freq
  then match dose, freq with
       | Some d, Some f => Some (d * f)
       | _, _ => None
       end
  else None.

(** [total and max_daily and total > max_daily] *)
Definition exceeds (total max_daily : option Z) : bool :=
  truthy_int total && truthy_int max_daily &&
  match total, max_daily with
  | Some t, Some m => m <? t
  | _, _ => false
  end.

(** The [if] of the loop of [check]: the warning appended for one entry,
    if any. *)
Definition warning_for (nm : string) (total max_daily : option Z)
  : option Warning :=
  match total, max_daily with
  | Some t, Some m =>
      if exceeds total max_daily
      then Some {| warning_drug := nm;
                   issue := issue_label;
                   computed_mg_per_day := t;
                   warning_max_daily_mg := m |}
      else None
  | _, _ => None
  end.

Section WithCollaborators.

Variable age_group : Z -> string.
Variable pipe : option (string -> string + string).

(** [utils.parse_prescription], the rule-based parser of free text. *)
Variable parse_prescription : string -> Database -> list Entry.

Definition extract (db : Database) (text : option string)
    (explicit_drugs : option (list RawEntry)) : list Entry :=
  match explicit_drugs with
  | Some (d :: ds) => clean db <$> (d :: ds)
  | _ =>
      match truthy_text text with
      | Some t =>
          let granite_result := GraniteClient.extract_drug_info pipe t in
          match GraniteClient.nonempty_list granite_result with
          | Some l => l
          | None => parse_prescription t db
          end
      | None => []
      end
  end.

(** The state of the loop of [check]: [recs] and [warnings]. *)
Definition check_state : Type := gmap string Guidance * list Warning.

(** The body of the loop of [check]. *)
Definition check_step (db : Database) (age : Z) (st : check_state) (it : Entry)
  : check_state :=
  let nm := drug it in
  let dose := dose_mg it in
  let freq := frequency_per_day it in
  let recommended := DrugDB.default_dose_for_age age_group db nm age in
  let max_daily := DrugDB.max_daily_mg age_group db nm age in
  let total := total_of dose freq in
  (<[ nm := {| recommended_dose_for_age := recommended;
               guidance_max_daily_mg := max_daily |} ]> st.1,
   st.2 ++ option_list (warning_for nm total max_daily)).

Definition check (db : Database) (items : list Entry) (age : Z)
  : AnalysisResult :=
  let drugs := drug <$> items in
  let interactions := DrugDB.interactions_for db drugs in
  let '(recs, warnings) := foldl (check_step db age) (∅, []) items in
  let alts := foldl (λ m nm, <[ nm := DrugDB.alternatives db nm ]> m) ∅ drugs in
  {| drugs_parsed := items;
     result_interactions := interactions;
     dosage_guidance := recs;
     warnings := warnings;
     result_alternatives := alts |}.

End WithCollaborators.

End Analyzer.

(** ** Reference predicates and data used by the statements *)

(** An interaction record concerns a list of names when its pair, as a set,
    is made of two names and both occur in the list. *)
Definition interacting (drugs : list string) (it : Interaction) : Prop :=
  size (list_to_set (pair it) : gset string) = 2%nat ∧
  (list_to_set (pair it) : gset string) ⊆ list_to_set drugs.

#[global] Instance interacting_dec drugs it : Decision (interacting drugs it).
Proof. unfold interacting. apply _. Defined.

(** The records that the keys visited so far have selected. *)
Definition covered (keys : gset (string * string)) (it : Interaction) : Prop :=
  set_Exists (λ k, DrugDB.same_pair k.1 k.2 it) keys.

#[global] Instance covered_dec keys it : Decision (covered keys it).
Proof. unfold covered. apply _. Defined.

(** The invariant of the two loops of [interactions_for]: the keys seen are
    ordered, and [out] holds the records they select. *)
Definition scan_inv (tbl : list Interaction) (st : DrugDB.scan_state) : Prop :=
  (∀ a b, (a, b) ∈ st.1 → String.ltb a b = true) ∧
  st.2 ≡ₚ filter (covered st.1) tbl.

(** The interaction index of the design (spec, 4.1), written from the
    spec's words to be compared with the scan of [interactions_for]: the key
    of a record is its pair as a set, the index is built once from the table,
    and a query looks up each unordered pair of the distinct input names. *)
Module Indexed.

Definition pair_key (it : Interaction) : gset string := list_to_set (pair it).

Definition build_index (tbl : list Interaction) : gmap (gset string) Interaction :=
  list_to_map ((λ it, (pair_key it, it)) <$> tbl).

(** Every pair made of an element and a later element of the list. *)
Fixpoint unordered_pairs (l : list string) : list (string * string) :=
  match l with
  | [] => []
  | a :: l' => ((λ b, (a, b)) <$> l') ++ unordered_pairs l'
  end.

Definition interactionsAmong (idx : gmap (gset string) Interaction)
    (names : list string) : list Interaction :=
  omap (λ k, idx !! ({[ k.1; k.2 ]} : gset string))
       (unordered_pairs (elements (list_to_set names : gset string))).

End Indexed.

(** Conditions on a dataset that some statements need. *)

(** No record name starts or ends with white space. *)
Definition names_trimmed (db : Database) : Prop :=
  Forall (λ d, Str.strip (Str.lower (name d)) = Str.lower (name d)) (drugs db).

(** The name of a record is matched, up to case, only by the name or an
    alias of records that carry the same name. *)
Definition names_unambiguous (db : Database) : Prop :=
  Forall (λ d, Forall (λ d', DrugDB.matches (Str.lower (name d)) d' → name d' = name d)
                      (drugs db)) (drugs db).

(** The names that the three tables of the dataset mention. *)
Definition table_names (db : Database) : list string :=
  elements (dom (default ∅ (max_daily_dose_mg db)))
  ++ elements (dom (default ∅ (alternatives_tbl db)))
  ++ concat (pair <$> interactions db).

(** The tables mention names of drug records only. *)
Definition tables_refer_to_records (db : Database) : Prop :=
  Forall (λ nm, nm ∈ name <$> drugs db) (table_names db).

#[global] Instance names_trimmed_dec db : Decision (names_trimmed db).
Proof. unfold names_trimmed. apply _. Defined.
#[global] Instance names_unambiguous_dec db : Decision (names_unambiguous db).
Proof. unfold names_unambiguous. apply _. Defined.
#[global] Instance tables_refer_to_records_dec db : Decision (tables_refer_to_records db).
Proof. unfold tables_refer_to_records. apply _. Defined.

(** The value that [check] stores in [recs] for a name. *)
Definition guidance_for (age_group : Z → string) (db : Database) (age : Z)
    (nm : string) : Guidance :=
  {| recommended_dose_for_age := DrugDB.default_dose_for_age age_group db nm age;
     guidance_max_daily_mg := DrugDB.max_daily_mg age_group db nm age |}.

(** The warning that [check] appends for an entry, if any. *)
Definition entry_warning (age_group : Z → string) (db : Database) (age : Z)
    (it : Entry) : option Warning :=
  Analyzer.warning_for (drug it)
    (Analyzer.total_of (dose_mg it) (frequency_per_day it))
    (DrugDB.max_daily_mg age_group db (drug it) age).

(** A field that is absent or zero. *)
Definition absent_or_zero (x : option Z) : Prop := x = None ∨ x = Some 0.

(** A record matches a raw name when its name or one of its aliases equals
    the trimmed raw name up to case. *)
Definition matches_raw (raw : string) (d : DrugRecord) : Prop :=
  Str.lower (name d) = Str.strip (Str.lower raw) ∨
  ∃ a, a ∈ DrugDB.alias_list d ∧ Str.lower a = Str.strip (Str.lower raw).

(** The example dataset of the specification. *)
Module Example.

Definition paracetamol : DrugRecord :=
  {| name := "Paracetamol";
     adult_dose := Some "500mg q6h"%string;
     child_dose := Some "250mg q6h"%string;
     aliases := Some ["Acetaminophen"%string] |}.

Definition warfarin : DrugRecord :=
  {| name := "Warfarin"; adult_dose := None; child_dose := None; aliases := None |}.

Definition ibuprofen : DrugRecord :=
  {| name := "Ibuprofen"; adult_dose := None; child_dose := None; aliases := None |}.

Definition paracetamol_warfarin : Interaction :=
  {| pair := ["Paracetamol"%string; "Warfarin"%string];
     severity := "moderate";
     note := EmptyString |}.

Definition ibuprofen_warfarin : Interaction :=
  {| pair := ["Ibuprofen"%string; "Warfarin"%string];
     severity := "major";
     note := EmptyString |}.

Definition db : Database :=
  {| drugs := [paracetamol; warfarin];
     max_daily_dose_mg :=
       Some {[ "Paracetamol"%string :=
                 {[ "adult"%string := 4000; "child"%string := 2000 ]} ]};
     interactions := [paracetamol_warfarin];
     alternatives_tbl := None |}.

(** The example dataset with a third drug and a second interaction. *)
Definition db3 : Database :=
  {| drugs := [paracetamol; warfarin; ibuprofen];
     max_daily_dose_mg := max_daily_dose_mg db;
     interactions := [paracetamol_warfarin; ibuprofen_warfarin];
     alternatives_tbl := Some {[ "Paracetamol"%string := ["Ibuprofen"%string] ]} |}.

(** A table that lists the same pair twice, in both orders. *)
Definition db_twice : Database :=
  {| drugs := [paracetamol; warfarin];
     max_daily_dose_mg := None;
     interactions :=
       [paracetamol_warfarin;
        {| pair := ["Warfarin"%string; "Paracetamol"%string];
           severity := "minor";
           note := EmptyString |}];
     alternatives_tbl := None |}.

(** Two records where an alias of the first is the name of the second. *)
Definition db_overlap : Database :=
  {| drugs :=
       [ {| name := "Paracetamol"; adult_dose := None; child_dose := None;
            aliases := Some ["Tylenol"%string] |};
         {| name := "Tylenol"; adult_dose := None; child_dose := None;
            aliases := Some ["Tylenol Extra"%string] |} ];
     max_daily_dose_mg := None;
     interactions := [];
     alternatives_tbl := None |}.

(** One record whose name ends with a space. *)
Definition db_padded : Database :=
  {| drugs :=
       [ {| name := "Paracetamol "; adult_dose := Some "500mg q6h"%string;
            child_dose := Some "250mg q6h"%string;
            aliases := Some ["Acetaminophen"%string] |} ];
     max_daily_dose_mg := None;
     interactions := [];
     alternatives_tbl := None |}.

(** Aspirin is not to be given to children: their daily maximum is 0. *)
Definition db_zero : Database :=
  {| drugs :=
       [ {| name := "Aspirin"; adult_dose := Some "300mg q6h"%string;
            child_dose := None; aliases := None |} ];
     max_daily_dose_mg :=
       Some {[ "Aspirin"%string :=
                 {[ "adult"%string := 4000; "child"%string := 0 ]} ]};
     interactions := [];
     alternatives_tbl := None |}.

(** Tables that mention Warfarin, a name without a drug record. *)
Definition db_orphan : Database :=
  {| drugs := [paracetamol];
     max_daily_dose_mg :=
       Some {[ "Warfarin"%string :=
                 {[ "adult"%string := 10; "child"%string := 5 ]} ]};
     interactions := [paracetamol_warfarin];
     alternatives_tbl := Some {[ "Warfarin"%string := ["Heparin"%string] ]} |}.

(** A fallback parser that reports the name as it is written in the text. *)
Definition parse_verbatim (text : string) (_ : Database) : list Entry :=
  [ {| drug := text; dose_mg := None; frequency_per_day := None |} ].

(** A bracket classifier: children below 13, adolescents below 18. *)
Definition age_group (age : Z) : string :=
  if age <? 13 then "child" else if age <? 18 then "adolescent" else "adult".

End Example.

(** An entry of a result, handed back as an element of [explicit_drugs]:
    the same dictionary, with its three keys present. *)
Definition as_raw (e : Entry) : RawEntry :=
  {| raw_drug := Some (drug e);
     raw_dose_mg := dose_mg e;
     raw_frequency_per_day := frequency_per_day e |}.

(** An entry with the signs of its dose and of its frequency changed. *)
Definition opposite (e : Entry) : Entry :=
  {| drug := drug e;
     dose_mg := Z.opp <$> dose_mg e;
     frequency_per_day := Z.opp <$> frequency_per_day e |}.

(** ** The form of [app.py] *)

Module App.

(** [int(x) if x else None], for the value of a [number_input]. *)
Definition int_or_none (x : Z) : option Z :=
  if x =? 0 then None else Some x.

(** The dictionary appended by the button "Add Drug". *)
Definition form_entry (drug_name : string) (dose_mg freq : Z) : RawEntry :=
  {| raw_drug := Some drug_name;
     raw_dose_mg := int_or_none dose_mg;
     raw_frequency_per_day := int_or_none freq |}.

(** What the user does between two analyses: the two buttons of the
    expander, with the values of the widgets at the click. *)
Inductive event :=
| AddDrug (drug_name : string) (dose_mg freq : Z)
| ClearDrugs.

(** One run of the script on [st.session_state.manual_drugs]. *)
Definition step (manual_drugs : list RawEntry) (ev : event) : list RawEntry :=
  match ev with
  | AddDrug drug_name dose_mg freq =>
      manual_drugs ++ [form_entry drug_name dose_mg freq]
  | ClearDrugs => []
  end.

(** The list after a session that starts with
    [st.session_state.manual_drugs = []]. *)
Definition run (evs : list event) : list RawEntry := foldl step [] evs.

(** The JSON body of the request of the button "Analyze". *)
Record Payload := {
  payload_age : Z;
  prescription_text : option string;
  payload_drugs : option (list RawEntry);
  hf_token : option string
}.

Definition payload (age : Z) (text : string) (manual_drugs : list RawEntry)
    (token : string) : Payload :=
  {| payload_age := age;
     prescription_text :=
       if bool_decide (Str.strip text = EmptyString) then None else Some text;
     payload_drugs :=
       match manual_drugs with [] => None | _ :: _ => Some manual_drugs end;
     hf_token :=
       if bool_decide (token = EmptyString) then None else Some token |}.

End App.

(** * Properties *)

(** ** Ordering of names *)

Section StringOrder.

Lemma ltb_irrefl (a : string) : String.ltb a a = false.
Proof.
  unfold String.ltb. pose proof (String.compare_antisym a a) as H.
  by destruct (String.compare a a).
Qed.

Lemma ltb_asym (a b : string) : String.ltb a b = true → String.ltb b a = false.
Proof.
  unfold String.ltb. rewrite (String.compare_antisym a b).
  by destruct (String.compare b a).
Qed.

Lemma ltb_total (a b : string) :
  a ≠ b → String.ltb a b = true ∨ String.ltb b a = true.
Proof.
  intros Hne. unfold String.ltb. rewrite (String.compare_antisym a b).
  destruct (String.compare b a) eqn:Hc; simpl; auto.
  apply String.compare_eq_iff in Hc. congruence.
Qed.

Lemma geb_false_ltb (a b : string) : Str.geb a b = false ↔ String.ltb a b = true.
Proof. unfold Str.geb. by destruct (String.ltb a b). Qed.

(** An unordered pair of distinct names has exactly one ordered key. *)
Lemma ordered_key_unique (a b a' b' : string) :
  String.ltb a b = true → String.ltb a' b' = true →
  (list_to_set [a; b] : gset string) = list_to_set [a'; b'] →
  (a, b) = (a', b').
Proof.
  intros Hab Hab' Heq.
  assert (Hin : ∀ x, x ∈ [a; b] ↔ x ∈ [a'; b']).
  { intros x. by rewrite <- !(elem_of_list_to_set (C:=gset string)), Heq. }
  assert (Ha : a ∈ [a'; b']) by (apply Hin; left).
  assert (Hb : b ∈ [a'; b']) by (apply Hin; right; left).
  assert (Ha' : a' ∈ [a; b]) by (apply Hin; left).
  assert (Hirr : ∀ x, String.ltb x x = true → False)
    by (intros x Hx; rewrite ltb_irrefl in Hx; discriminate).
  assert (Hasym : ∀ x y, String.ltb x y = true → String.ltb y x = true → False)
    by (intros x y Hx Hy; rewrite (ltb_asym _ _ Hx) in Hy; discriminate).
  rewrite !elem_of_cons in Ha, Hb, Ha'.
  destruct Ha as [-> | [-> | Ha]]; [| | by apply elem_of_nil in Ha].
  - destruct Hb as [-> | [-> | Hb]]; [| done | by apply elem_of_nil in Hb].
    by destruct (Hirr _ Hab).
  - destruct Ha' as [-> | [-> | Ha']]; [| | by apply elem_of_nil in Ha'].
    + by destruct (Hirr _ Hab').
    + by destruct (Hasym _ _ Hab Hab').
Qed.

End StringOrder.

(** ** Sets of two names *)

Lemma pair_set_eq (a b : string) :
  (list_to_set [a; b] : gset string) = {[ a; b ]}.
Proof. simpl. by rewrite (right_id_L ∅ (∪)). Qed.

Lemma interacting_iff (drugs : list string) (it : Interaction) :
  interacting drugs it ↔
  ∃ a b, a ∈ drugs ∧ b ∈ drugs ∧ a ≠ b ∧
         (list_to_set (pair it) : gset string) = {[ a; b ]}.
Proof.
  unfold interacting. set (S := list_to_set (pair it) : gset string). split.
  - intros [Hsz Hsub].
    destruct (size_pos_elem_of S) as [a Ha]; [lia |].
    assert (Hsz' : size (S ∖ {[ a ]}) = 1%nat).
    { rewrite size_difference, size_singleton by (by apply singleton_subseteq_l). lia. }
    apply size_1_elem_of in Hsz' as [b Hb]. apply leibniz_equiv in Hb.
    assert (Hb' : b ∈ S ∖ {[ a ]}) by (rewrite Hb; by apply elem_of_singleton).
    apply elem_of_difference in Hb' as [HbS Hba].
    exists a, b. repeat split.
    + apply (elem_of_list_to_set (C:=gset string)). by apply Hsub.
    + apply (elem_of_list_to_set (C:=gset string)). by apply Hsub.
    + intros ->. apply Hba. by apply elem_of_singleton.
    + rewrite <- Hb. apply union_difference_L. by apply singleton_subseteq_l.
  - intros (a & b & Ha & Hb & Hne & ->). split.
    + rewrite size_union, !size_singleton; [done |].
      apply disjoint_singleton_l. by rewrite elem_of_singleton.
    + apply union_subseteq. split; apply singleton_subseteq_l;
        by apply elem_of_list_to_set.
Qed.

(** ** Lists *)

Section Lists.
Context {A : Type}.

Lemma filter_app_disjoint (P Q : A → Prop)
    `{!∀ x, Decision (P x)} `{!∀ x, Decision (Q x)} (l : list A) :
  (∀ x, P x → Q x → False) →
  filter P l ++ filter Q l ≡ₚ filter (λ x, P x ∨ Q x) l.
Proof.
  intros Hdisj. induction l as [| x l IH]; [done |].
  destruct (decide (P x)) as [HP | HP]; destruct (decide (Q x)) as [HQ | HQ].
  - destruct (Hdisj x HP HQ).
  - rewrite (filter_cons_True P), (filter_cons_False Q) by done.
    rewrite (filter_cons_True (λ x, P x ∨ Q x)) by auto.
    simpl. by f_equiv.
  - rewrite (filter_cons_False P), (filter_cons_True Q) by done.
    rewrite (filter_cons_True (λ x, P x ∨ Q x)) by auto.
    rewrite <- Permutation_middle. by f_equiv.
  - rewrite (filter_cons_False P), (filter_cons_False Q) by done.
    rewrite (filter_cons_False (λ x, P x ∨ Q x)) by tauto.
    done.
Qed.

Lemma filter_none (P : A → Prop) `{!∀ x, Decision (P x)} (l : list A) :
  (∀ x, ¬ P x) → filter P l = [].
Proof.
  intros HP. induction l as [| x l IH]; [done |].
  by rewrite filter_cons_False.
Qed.
End Lists.

(** ** The scan of [interactions_for] *)

Section ScanInv.
Variable tbl : list Interaction.

Lemma scan_inv_init : scan_inv tbl (∅, []).
Proof.
  split; simpl; [set_solver |].
  rewrite filter_none; [done |].
  intros it (k & Hk & _). set_solver.
Qed.

Lemma visit_spec a b st :
  scan_inv tbl st →
  scan_inv tbl (DrugDB.visit tbl a b st) ∧
  ∀ k, k ∈ (DrugDB.visit tbl a b st).1 ↔
       k ∈ st.1 ∨ (k = (a, b) ∧ String.ltb a b = true).
Proof.
  intros [Hlt Hout]. unfold DrugDB.visit.
  destruct (Str.geb a b) eqn:Hge.
  { split; [by split |]. intros k. split; [auto |].
    intros [? | [_ Hab]]; [done |].
    apply geb_false_ltb in Hab. congruence. }
  apply geb_false_ltb in Hge.
  case_bool_decide as Hseen.
  { split; [by split |]. intros k. split; [auto |].
    by intros [? | [-> _]]. }
  split; [split |]; simpl.
  - intros a' b' [Hk | Hk]%elem_of_union; [| by apply Hlt].
    apply elem_of_singleton in Hk. by simplify_eq.
  - rewrite Hout.
    rewrite (filter_app_disjoint (covered st.1) (λ it, DrugDB.same_pair a b it)).
    + erewrite list_filter_iff; [done |].
      intros it. unfold covered, set_Exists. split.
      * intros [(k & Hk & Hs) | Hs].
        -- exists k. split; [set_solver | done].
        -- exists (a, b). split; [set_solver | done].
      * intros (k & [Hk | Hk]%elem_of_union & Hs).
        -- apply elem_of_singleton in Hk. subst k. by right.
        -- left. by exists k.
    + intros it ([a' b'] & Hk & Hs) Hs'. simpl in Hs.
      apply Hseen.
      unfold DrugDB.same_pair in Hs, Hs'.
      apply bool_decide_unpack in Hs, Hs'.
      rewrite (ordered_key_unique a b a' b'); [done | done | by apply Hlt | congruence].
  - intros k. rewrite elem_of_union, elem_of_singleton. naive_solver.
Qed.

Lemma inner_spec a bs st :
  scan_inv tbl st →
  scan_inv tbl (foldl (λ st' b, DrugDB.visit tbl a b st') st bs) ∧
  ∀ k, k ∈ (foldl (λ st' b, DrugDB.visit tbl a b st') st bs).1 ↔
       k ∈ st.1 ∨ (k.1 = a ∧ k.2 ∈ bs ∧ String.ltb k.1 k.2 = true).
Proof.
  revert st. induction bs as [| b bs IH]; intros st Hinv; simpl.
  { split; [done |]. intros k. split; [auto |].
    intros [? | (_ & Hin & _)]; [done |]. by apply elem_of_nil in Hin. }
  destruct (visit_spec a b st Hinv) as [Hinv' Hk'].
  destruct (IH _ Hinv') as [Hinv'' Hk''].
  split; [done |]. intros k. rewrite Hk'', Hk', elem_of_cons.
  destruct k as [k1 k2]; simpl. naive_solver.
Qed.

Lemma outer_spec bs l st :
  scan_inv tbl st →
  scan_inv tbl (foldl (λ st a, foldl (λ st' b, DrugDB.visit tbl a b st') st bs) st l) ∧
  ∀ k, k ∈ (foldl (λ st a, foldl (λ st' b, DrugDB.visit tbl a b st') st bs) st l).1 ↔
       k ∈ st.1 ∨ (k.1 ∈ l ∧ k.2 ∈ bs ∧ String.ltb k.1 k.2 = true).
Proof.
  revert st. induction l as [| a l IH]; intros st Hinv; simpl.
  { split; [done |]. intros k. split; [auto |].
    intros [? | (Hin & _)]; [done |]. by apply elem_of_nil in Hin. }
  destruct (inner_spec a bs st Hinv) as [Hinv' Hk'].
  destruct (IH _ Hinv') as [Hinv'' Hk''].
  split; [done |]. intros k. rewrite Hk'', Hk', elem_of_cons.
  naive_solver.
Qed.

Lemma scan_out (l : list string) :
  (DrugDB.scan tbl l).2 ≡ₚ filter (interacting l) tbl.
Proof.
  destruct (outer_spec l l (∅, []) scan_inv_init) as [[_ Hout] Hk].
  unfold DrugDB.scan. rewrite Hout.
  erewrite list_filter_iff; [done |]. intros it.
  rewrite interacting_iff. unfold covered, set_Exists. split.
  - intros ([a b] & Hin & Hs). simpl in Hs.
    apply Hk in Hin as [Hin | (Ha & Hb & Hlt)]; [set_solver |]. simpl in *.
    exists a, b. repeat split; [done | done | |].
    + intros ->. by rewrite ltb_irrefl in Hlt.
    + apply bool_decide_unpack in Hs. by rewrite <- pair_set_eq.
  - intros (a & b & Ha & Hb & Hne & Hs).
    destruct (ltb_total a b Hne) as [Hlt | Hlt].
    + exists (a, b). split; [apply Hk; right; by simpl |].
      simpl. apply bool_decide_pack. by rewrite pair_set_eq.
    + exists (b, a). split; [apply Hk; right; by simpl |].
      simpl. apply bool_decide_pack. rewrite pair_set_eq, Hs. set_solver.
Qed.
End ScanInv.

(** ** Interaction lookup *)

Lemma interactions_for_filter (db : Database) (names : list string) :
  DrugDB.interactions_for db names ≡ₚ filter (interacting names) (interactions db).
Proof. apply scan_out. Qed.

Lemma interacting_same_names (l l' : list string) (it : Interaction) :
  (list_to_set l : gset string) = list_to_set l' →
  interacting l it ↔ interacting l' it.
Proof. unfold interacting. by intros ->. Qed.

(** ** The index of the design *)

Section IndexProofs.
Import Indexed.

Lemma unordered_pairs_elem (l : list string) (a b : string) :
  (a, b) ∈ unordered_pairs l → a ∈ l ∧ b ∈ l.
Proof.
  induction l as [| x l IH]; simpl; [by intros ?%elem_of_nil |].
  rewrite elem_of_app, list_elem_of_fmap, !elem_of_cons.
  intros [(y & [= -> ->] & Hy) | Hin]; [auto |].
  destruct (IH Hin). auto.
Qed.

Lemma unordered_pairs_distinct (l : list string) (a b : string) :
  NoDup l → (a, b) ∈ unordered_pairs l → a ≠ b.
Proof.
  induction 1 as [| x l Hx Hnd IH]; simpl; [by intros ?%elem_of_nil |].
  rewrite elem_of_app, list_elem_of_fmap.
  intros [(y & [= -> ->] & Hy) | Hin]; [congruence | auto].
Qed.

Lemma unordered_pairs_complete (l : list string) (a b : string) :
  a ∈ l → b ∈ l → a ≠ b →
  (a, b) ∈ unordered_pairs l ∨ (b, a) ∈ unordered_pairs l.
Proof.
  induction l as [| x l IH]; simpl; [by intros ?%elem_of_nil |].
  rewrite !elem_of_cons. setoid_rewrite elem_of_app.
  setoid_rewrite list_elem_of_fmap.
  intros [-> | Ha] [-> | Hb] Hne.
  - done.
  - left. left. by exists b.
  - right. left. by exists a.
  - destruct (IH Ha Hb Hne); auto.
Qed.

Lemma two_set_inv (a b a' b' : string) :
  ({[ a; b ]} : gset string) = {[ a'; b' ]} →
  (a = a' ∨ a = b') ∧ (b = a' ∨ b = b').
Proof.
  intros Heq.
  assert (Ha : a ∈ ({[ a'; b' ]} : gset string))
    by (rewrite <- Heq; apply elem_of_union_l; by apply elem_of_singleton).
  assert (Hb : b ∈ ({[ a'; b' ]} : gset string))
    by (rewrite <- Heq; apply elem_of_union_r; by apply elem_of_singleton).
  by rewrite !elem_of_union, !elem_of_singleton in Ha, Hb.
Qed.

Lemma unordered_pairs_key_inj (l : list string) (k k' : string * string) :
  NoDup l → k ∈ unordered_pairs l → k' ∈ unordered_pairs l →
  ({[ k.1; k.2 ]} : gset string) = {[ k'.1; k'.2 ]} → k = k'.
Proof.
  destruct k as [a b], k' as [a' b']. simpl.
  induction 1 as [| x l Hx Hnd IH]; simpl; [by intros ?%elem_of_nil |].
  rewrite !elem_of_app, !list_elem_of_fmap.
  intros [(y & [= -> ->] & Hy) | Hin] [(y' & [= -> ->] & Hy') | Hin'] Heq.
  - destruct (two_set_inv _ _ _ _ Heq) as [_ [-> | ->]]; done.
  - apply unordered_pairs_elem in Hin' as [? ?].
    destruct (two_set_inv _ _ _ _ Heq) as [[-> | ->] _]; done.
  - apply unordered_pairs_elem in Hin as [? ?].
    symmetry in Heq.
    destruct (two_set_inv _ _ _ _ Heq) as [[-> | ->] _]; done.
  - by apply IH.
Qed.

Lemma unordered_pairs_NoDup (l : list string) :
  NoDup l → NoDup (unordered_pairs l).
Proof.
  induction 1 as [| x l Hx Hnd IH]; simpl; [constructor |].
  apply NoDup_app. split; [| split; [| done]].
  - apply NoDup_fmap_2_strong; [| done]. by intros ??? ? [= ->].
  - intros [a b] (y & [= -> ->] & Hy)%list_elem_of_fmap Hin.
    by apply unordered_pairs_elem in Hin as [? ?].
Qed.

Lemma NoDup_omap_inj {A B} (f : A → option B) (l : list A) :
  (∀ x y z, x ∈ l → y ∈ l → f x = Some z → f y = Some z → x = y) →
  NoDup l → NoDup (omap f l).
Proof.
  intros Hinj. induction 1 as [| x l Hx Hnd IH]; csimpl; [constructor |].
  assert (IH' : NoDup (omap f l)).
  { apply IH. intros ??? ??; apply Hinj; by right. }
  destruct (f x) as [z |] eqn:Hfx; [| done].
  constructor; [| done].
  intros (y & Hy & Hfy)%list_elem_of_omap.
  apply Hx. rewrite (Hinj x y z); [done | left | by right | done | done].
Qed.

Lemma build_index_lookup (tbl : list Interaction) (k : gset string) (it : Interaction) :
  NoDup (pair_key <$> tbl) →
  build_index tbl !! k = Some it ↔ it ∈ tbl ∧ pair_key it = k.
Proof.
  intros Hnd. unfold build_index.
  rewrite <- elem_of_list_to_map.
  - rewrite list_elem_of_fmap. split.
    + by intros (it' & [= -> ->] & Hin).
    + intros [Hin <-]. by exists it.
  - by rewrite <- list_fmap_compose.
Qed.

Lemma interactionsAmong_filter (tbl : list Interaction) (names : list string) :
  NoDup (pair_key <$> tbl) →
  interactionsAmong (build_index tbl) names ≡ₚ filter (interacting names) tbl.
Proof.
  intros Hnd. unfold interactionsAmong.
  set (l := elements (list_to_set names : gset string)).
  assert (Hl : NoDup l) by apply NoDup_elements.
  assert (Hin : ∀ x, x ∈ l ↔ x ∈ names).
  { intros x. unfold l. by rewrite elem_of_elements, elem_of_list_to_set. }
  apply NoDup_Permutation.
  - apply NoDup_omap_inj; [| by apply unordered_pairs_NoDup].
    intros k k' it Hk Hk' Hit Hit'.
    apply build_index_lookup in Hit as [_ Hit], Hit' as [_ Hit']; [| done ..].
    apply (unordered_pairs_key_inj l); [done .. | congruence].
  - apply NoDup_filter. by apply NoDup_fmap_1 in Hnd.
  - intros it. rewrite list_elem_of_omap, list_elem_of_filter, interacting_iff. split.
    + intros ([a b] & Hk & Hit). simpl in Hit.
      apply build_index_lookup in Hit as [Hit Hkey]; [| done].
      split; [| done]. exists a, b.
      pose proof (unordered_pairs_distinct l a b Hl Hk).
      apply unordered_pairs_elem in Hk as [? ?].
      repeat split; [by apply Hin | by apply Hin | done | done].
    + intros [(a & b & Ha & Hb & Hne & Hkey) Hit].
      destruct (unordered_pairs_complete l a b) as [Hk | Hk];
        [by apply Hin | by apply Hin | done | |].
      * exists (a, b). split; [done |]. simpl.
        by apply build_index_lookup.
      * exists (b, a). split; [done |]. simpl.
        apply build_index_lookup; [done |]. split; [done |].
        unfold pair_key. rewrite Hkey. apply (comm_L (∪)).
Qed.
End IndexProofs.

(** C2 (as amended). The result of [interactions_for] is, up to the order of
    its elements, the sub-list of the interaction table made of the records
    whose pair is a set of two distinct input names: each record of the table
    is returned at most once, a record is returned only for two distinct
    names, and two inputs with the same set of names (a permutation, or the
    same names with repetitions) give the same records with the same
    multiplicities. The order of the result follows the input. *)
Theorem interactions_for_same_names (db : Database) (names names' : list string) :
  (list_to_set names : gset string) = list_to_set names' →
  DrugDB.interactions_for db names ≡ₚ filter (interacting names) (interactions db)
  ∧ (∀ it, it ∈ DrugDB.interactions_for db names →
       ∃ a b, a ∈ names ∧ b ∈ names ∧ a ≠ b ∧
              (list_to_set (pair it) : gset string) = {[ a; b ]})
  ∧ DrugDB.interactions_for db names ≡ₚ DrugDB.interactions_for db names'.
Proof.
  intros Hset. split; [apply interactions_for_filter | split].
  - intros it Hit. rewrite interactions_for_filter in Hit.
    apply list_elem_of_filter in Hit as [Hit _]. by apply interacting_iff.
  - rewrite !interactions_for_filter.
    erewrite list_filter_iff; [done |].
    intros it. by apply interacting_same_names.
Qed.

Lemma interactions_for_same_names_witness :
  DrugDB.interactions_for Example.db ["Warfarin"; "Paracetamol"]%string
  ≡ₚ DrugDB.interactions_for Example.db
       ["Paracetamol"; "Warfarin"; "Warfarin"]%string.
Proof.
  apply (interactions_for_same_names Example.db
           ["Warfarin"; "Paracetamol"]%string
           ["Paracetamol"; "Warfarin"; "Warfarin"]%string).
  vm_compute. reflexivity.
Defined.

(** C2. As the specification states it, the property fails: a permutation
    of the input changes the order of the result. *)
Lemma interactions_for_order_follows_input :
  ["Warfarin"; "Paracetamol"; "Ibuprofen"]%string
    ≡ₚ ["Warfarin"; "Ibuprofen"; "Paracetamol"]%string
  ∧ DrugDB.interactions_for Example.db3 ["Warfarin"; "Paracetamol"; "Ibuprofen"]%string
    = [Example.paracetamol_warfarin; Example.ibuprofen_warfarin]
  ∧ DrugDB.interactions_for Example.db3 ["Warfarin"; "Ibuprofen"; "Paracetamol"]%string
    = [Example.ibuprofen_warfarin; Example.paracetamol_warfarin]
  ∧ DrugDB.interactions_for Example.db3 ["Warfarin"; "Paracetamol"; "Ibuprofen"]%string
    ≠ DrugDB.interactions_for Example.db3 ["Warfarin"; "Ibuprofen"; "Paracetamol"]%string.
Proof.
  split; [apply perm_skip, perm_swap |].
  split; [by vm_compute |]. split; [by vm_compute |].
  vm_compute. intros [=].
Qed.

(** The example of the specification: one record, whatever the order. *)
Example interactions_for_warfarin_paracetamol :
  DrugDB.interactions_for Example.db ["Warfarin"; "Paracetamol"]%string
    = [Example.paracetamol_warfarin]
  ∧ DrugDB.interactions_for Example.db ["Paracetamol"; "Warfarin"]%string
    = [Example.paracetamol_warfarin].
Proof. split; by vm_compute. Qed.

(** C3 (as amended). [interactions_for] keeps no index: it scans the table for
    every ordered key. An index built once from the table and keyed by the
    pair as a set, queried for the unordered pairs of the distinct input
    names, returns the records of the scan with the same multiplicities when
    no two records of the table have the same pair. *)
Theorem index_refines_scan (db : Database) (names : list string) :
  NoDup (Indexed.pair_key <$> interactions db) →
  Indexed.interactionsAmong (Indexed.build_index (interactions db)) names
  ≡ₚ DrugDB.interactions_for db names.
Proof.
  intros Hnd. rewrite interactions_for_filter.
  by apply interactionsAmong_filter.
Qed.

Lemma index_refines_scan_witness :
  Indexed.interactionsAmong (Indexed.build_index (interactions Example.db3))
    ["Warfarin"; "Paracetamol"; "Ibuprofen"]%string
  ≡ₚ DrugDB.interactions_for Example.db3
       ["Warfarin"; "Paracetamol"; "Ibuprofen"]%string.
Proof.
  apply (index_refines_scan Example.db3).
  apply (bool_decide_unpack _). vm_compute. exact I.
Defined.

(** C3. As the specification states it, the property fails: on a table with
    one record per pair the indexed lookup and the scan return the records in
    different orders, and on a table with two records for one pair the index
    keeps one of them while the scan returns both. *)
Lemma index_differs_from_scan :
  Indexed.interactionsAmong (Indexed.build_index (interactions Example.db3))
    ["Warfarin"; "Paracetamol"; "Ibuprofen"]%string
  ≠ DrugDB.interactions_for Example.db3 ["Warfarin"; "Paracetamol"; "Ibuprofen"]%string
  ∧ length (Indexed.interactionsAmong
              (Indexed.build_index (interactions Example.db_twice))
              ["Warfarin"; "Paracetamol"]%string) = 1%nat
  ∧ length (DrugDB.interactions_for Example.db_twice
              ["Warfarin"; "Paracetamol"]%string) = 2%nat.
Proof.
  split; [vm_compute; intros [=] |]. split; by vm_compute.
Qed.

(** ** Name resolution *)

Section Normalize.

Lemma matches_spec (raw : string) (d : DrugRecord) :
  DrugDB.matches (Str.strip (Str.lower raw)) d = true ↔ matches_raw raw d.
Proof.
  unfold DrugDB.matches, matches_raw.
  rewrite orb_true_iff, !bool_decide_eq_true, list_elem_of_fmap.
  split; (intros [? | (a & ? & ?)]; [by left | right; by exists a]).
Qed.

Lemma matches_false_spec (raw : string) (d : DrugRecord) :
  DrugDB.matches (Str.strip (Str.lower raw)) d = false ↔ ¬ matches_raw raw d.
Proof. rewrite <- matches_spec. by destruct (DrugDB.matches _ d). Qed.

Lemma normalize_loop_Some (n : string) (ds : list DrugRecord) (c : string) :
  DrugDB.normalize_loop n ds = Some c ↔
  ∃ i d, ds !! i = Some d ∧ DrugDB.matches n d = true ∧ c = name d ∧
         ∀ j d', (j < i)%nat → ds !! j = Some d' → DrugDB.matches n d' = false.
Proof.
  induction ds as [| d0 ds IH]; simpl.
  { split; [done | by intros (i & d & ? & _)]. }
  destruct (DrugDB.matches n d0) eqn:Hm.
  - split.
    + intros [= <-]. exists 0%nat, d0. repeat split; [done |]. intros; lia.
    + intros (i & d & Hi & Hd & -> & Hfirst). destruct i as [| i].
      * by injection Hi as ->.
      * rewrite (Hfirst 0%nat d0) in Hm; [done | lia | done].
  - rewrite IH. split.
    + intros (i & d & Hi & Hd & -> & Hfirst).
      exists (S i), d. repeat split; [done | done |].
      intros [| j] d' Hj Hd'; [by injection Hd' as <- |].
      apply (Hfirst j); [lia | done].
    + intros (i & d & Hi & Hd & -> & Hfirst). destruct i as [| i].
      * injection Hi as ->. congruence.
      * exists i, d. repeat split; [done | done |].
        intros j d' Hj Hd'. apply (Hfirst (S j)); [lia | done].
Qed.

Lemma normalize_loop_None (n : string) (ds : list DrugRecord) :
  DrugDB.normalize_loop n ds = None ↔ ∀ d, d ∈ ds → DrugDB.matches n d = false.
Proof.
  induction ds as [| d0 ds IH]; simpl.
  { split; [by intros _ d ?%elem_of_nil | done]. }
  destruct (DrugDB.matches n d0) eqn:Hm.
  - split; [done |]. intros H. rewrite H in Hm; [done | left].
  - rewrite IH. split.
    + intros H d [-> | Hd]%elem_of_cons; auto.
    + intros H d Hd. apply H. by right.
Qed.

Lemma normalize_loop_name (n : string) (ds : list DrugRecord) (c : string) :
  DrugDB.normalize_loop n ds = Some c →
  ∃ d, d ∈ ds ∧ DrugDB.matches n d = true ∧ c = name d.
Proof.
  intros (i & d & Hi & Hd & -> & _)%normalize_loop_Some.
  exists d. split; [by eapply list_elem_of_lookup_2 | done].
Qed.

Lemma matches_own_name (d : DrugRecord) :
  DrugDB.matches (Str.lower (name d)) d = true.
Proof. unfold DrugDB.matches. by rewrite bool_decide_true. Qed.

(** In a dataset with trimmed names, the name of a record resolves. *)
Lemma normalize_record_name (db : Database) (d : DrugRecord) :
  names_trimmed db → d ∈ drugs db → is_Some (DrugDB.normalize db (name d)).
Proof.
  intros Htrim Hd. unfold DrugDB.normalize.
  rewrite (proj1 (Forall_forall _ _) Htrim d Hd).
  destruct (DrugDB.normalize_loop _ _) eqn:Hn; [done |].
  rewrite normalize_loop_None in Hn.
  pose proof (matches_own_name d) as Hown. by rewrite (Hn d Hd) in Hown.
Qed.

End Normalize.

(** C8. [normalize] returns the name of the first record, in the order of the
    dataset, whose name or one of whose aliases equals the raw name up to
    case (the raw name being trimmed first), and [None] when there is no such
    record; on the example dataset, "acetaminophen" resolves to
    "Paracetamol". *)
Theorem normalize_first_match (db : Database) (raw : string) :
  (∀ c, DrugDB.normalize db raw = Some c ↔
        ∃ i d, drugs db !! i = Some d ∧ matches_raw raw d ∧ c = name d ∧
               ∀ j d', (j < i)%nat → drugs db !! j = Some d' → ¬ matches_raw raw d')
  ∧ (DrugDB.normalize db raw = None ↔ ∀ d, d ∈ drugs db → ¬ matches_raw raw d)
  ∧ DrugDB.normalize Example.db "acetaminophen" = Some "Paracetamol"%string.
Proof.
  unfold DrugDB.normalize at 1 2. split; [| split; [| by vm_compute]].
  - intros c. rewrite normalize_loop_Some.
    do 2 (apply exist_proper; intros ?).
    rewrite matches_spec. repeat (apply and_iff_compat_l).
    by setoid_rewrite matches_false_spec.
  - rewrite normalize_loop_None. by setoid_rewrite matches_false_spec.
Qed.

Lemma normalize_first_match_witness :
  ∃ i d, drugs Example.db !! i = Some d ∧ matches_raw "  ACETAMINOPHEN " d ∧
         "Paracetamol"%string = name d ∧
         ∀ j d', (j < i)%nat → drugs Example.db !! j = Some d' →
                 ¬ matches_raw "  ACETAMINOPHEN " d'.
Proof.
  apply (proj1 (normalize_first_match Example.db "  ACETAMINOPHEN ")).
  vm_compute. reflexivity.
Defined.

(** C7 (as amended). In a dataset whose record names carry no outer white
    space and are matched, up to case, only by records of the same name,
    resolving a resolved name gives the same name. *)
Theorem normalize_idempotent (db : Database) (x c : string) :
  names_trimmed db → names_unambiguous db →
  DrugDB.normalize db x = Some c →
  DrugDB.normalize db c = Some c.
Proof.
  intros Htrim Hunamb Hx.
  apply normalize_loop_name in Hx as (d & Hd & _ & ->).
  destruct (normalize_record_name db d Htrim Hd) as [c' Hc'].
  rewrite Hc'. f_equal.
  unfold DrugDB.normalize in Hc'.
  rewrite (proj1 (Forall_forall _ _) Htrim d Hd) in Hc'.
  apply normalize_loop_name in Hc' as (d' & Hd' & Hm & ->).
  pose proof (proj1 (Forall_forall _ _) Hunamb d Hd) as Hall.
  apply (proj1 (Forall_forall _ _) Hall d' Hd'). by rewrite Hm.
Qed.

Lemma normalize_idempotent_witness :
  DrugDB.normalize Example.db3 "Paracetamol" = Some "Paracetamol"%string.
Proof.
  apply (normalize_idempotent Example.db3 "acetaminophen" "Paracetamol").
  - apply (bool_decide_unpack _). vm_compute. exact I.
  - apply (bool_decide_unpack _). vm_compute. exact I.
  - vm_compute. reflexivity.
Defined.

(** C7. As the specification states it, the property fails: when an alias of
    an earlier record is the name of a later one, the resolved name resolves
    to another name; when a record name carries outer white space, the
    resolved name does not resolve. *)
Lemma normalize_not_idempotent :
  (DrugDB.normalize Example.db_overlap "tylenol extra" = Some "Tylenol"%string
   ∧ DrugDB.normalize Example.db_overlap "Tylenol" = Some "Paracetamol"%string)
  ∧ (DrugDB.normalize Example.db_padded "acetaminophen" = Some "Paracetamol "%string
     ∧ DrugDB.normalize Example.db_padded "Paracetamol " = None).
Proof. repeat split; by vm_compute. Qed.

(** ** Doses by age bracket *)

Section Doses.

Variable age_group : Z → string.

Lemma pediatric_spec (grp : string) :
  DrugDB.pediatric grp = true ↔ grp = "child"%string ∨ grp = "adolescent"%string.
Proof.
  unfold DrugDB.pediatric.
  rewrite bool_decide_eq_true, !elem_of_cons, elem_of_nil. tauto.
Qed.

Lemma pediatric_false_spec (grp : string) :
  DrugDB.pediatric grp = false ↔ grp ≠ "child"%string ∧ grp ≠ "adolescent"%string.
Proof.
  rewrite <- not_true_iff_false, pediatric_spec. tauto.
Qed.

Lemma find_record_None (nm : string) (ds : list DrugRecord) :
  DrugDB.find_record nm ds = None ↔ nm ∉ name <$> ds.
Proof.
  induction ds as [| d ds IH]; csimpl.
  { split; [intros _ ?%elem_of_nil | ]; done. }
  rewrite not_elem_of_cons. case_bool_decide; [| rewrite IH]; naive_solver.
Qed.

Lemma find_record_first (nm : string) (pre post : list DrugRecord) (d : DrugRecord) :
  name d = nm → nm ∉ name <$> pre →
  DrugDB.find_record nm (pre ++ d :: post) = Some d.
Proof.
  intros Hd. induction pre as [| d0 pre IH]; simpl.
  - by rewrite bool_decide_true.
  - intros [Hne Hpre]%not_elem_of_cons.
    rewrite bool_decide_false by done. by apply IH.
Qed.

Lemma max_daily_mg_bind (db : Database) (nm : string) (age : Z) :
  DrugDB.max_daily_mg age_group db nm age =
  default ∅ (max_daily_dose_mg db) !! nm ≫=
    λ m, m !! (if DrugDB.pediatric (age_group age) then "child" else "adult")%string.
Proof.
  unfold DrugDB.max_daily_mg.
  destruct (default ∅ (max_daily_dose_mg db) !! nm) as [m |]; simpl; [| done].
  case_bool_decide as Hm; [| by destruct (DrugDB.pediatric _)].
  subst m. by rewrite lookup_empty.
Qed.

End Doses.

(** C9. [default_dose_for_age] returns [None] for a name that no record
    carries and otherwise, for the first record of that name, its
    [child_dose] when the bracket of the age is "child" or "adolescent" and
    its [adult_dose] in every other bracket; [max_daily_mg] selects "child" or
    "adult" in the same way in the entry of the drug in [max_daily_dose_mg]
    and returns [None] when the drug or the bracket has no entry. On the
    example dataset, an age of a child bracket gives "250mg q6h" and an age of
    an adult bracket "500mg q6h". *)
Theorem dose_by_bracket (age_group : Z → string) (db : Database)
    (drugname : string) (age : Z) :
  let grp := age_group age in
  let dose := DrugDB.default_dose_for_age age_group db drugname age in
  let limit := DrugDB.max_daily_mg age_group db drugname age in
  let table := default ∅ (max_daily_dose_mg db) in
  (drugname ∉ name <$> drugs db → dose = None)
  ∧ (∀ pre d post,
       drugs db = pre ++ d :: post → name d = drugname → drugname ∉ name <$> pre →
       (grp = "child"%string ∨ grp = "adolescent"%string → dose = child_dose d)
       ∧ (grp ≠ "child"%string ∧ grp ≠ "adolescent"%string → dose = adult_dose d))
  ∧ (table !! drugname = None → limit = None)
  ∧ (∀ m, table !! drugname = Some m →
       (grp = "child"%string ∨ grp = "adolescent"%string → limit = m !! "child"%string)
       ∧ (grp ≠ "child"%string ∧ grp ≠ "adolescent"%string → limit = m !! "adult"%string))
  ∧ (age_group 8 = "child"%string ∨ age_group 8 = "adolescent"%string →
     DrugDB.default_dose_for_age age_group Example.db "Paracetamol" 8
     = Some "250mg q6h"%string)
  ∧ (age_group 30 ≠ "child"%string ∧ age_group 30 ≠ "adolescent"%string →
     DrugDB.default_dose_for_age age_group Example.db "Paracetamol" 30
     = Some "500mg q6h"%string).
Proof.
  cbv zeta. split; [| split; [| split; [| split; [| split]]]].
  - intros Hno. unfold DrugDB.default_dose_for_age.
    by rewrite (proj2 (find_record_None _ _) Hno).
  - intros pre d post Hdrugs Hd Hpre. unfold DrugDB.default_dose_for_age.
    rewrite Hdrugs, (find_record_first drugname pre post d) by done.
    split.
    + intros Hgrp%pediatric_spec. by rewrite Hgrp.
    + intros Hgrp%pediatric_false_spec. by rewrite Hgrp.
  - intros Hno. by rewrite max_daily_mg_bind, Hno.
  - intros m Hm. rewrite max_daily_mg_bind, Hm. simpl. split.
    + intros Hgrp%pediatric_spec. by rewrite Hgrp.
    + intros Hgrp%pediatric_false_spec. by rewrite Hgrp.
  - intros Hgrp%pediatric_spec. unfold DrugDB.default_dose_for_age. simpl.
    by rewrite Hgrp.
  - intros Hgrp%pediatric_false_spec. unfold DrugDB.default_dose_for_age. simpl.
    by rewrite Hgrp.
Qed.

Lemma dose_by_bracket_witness :
  DrugDB.default_dose_for_age Example.age_group Example.db "Paracetamol" 8
  = Some "250mg q6h"%string
  ∧ DrugDB.default_dose_for_age Example.age_group Example.db "Paracetamol" 30
    = Some "500mg q6h"%string
  ∧ DrugDB.max_daily_mg Example.age_group Example.db "Paracetamol" 8 = Some 2000
  ∧ DrugDB.max_daily_mg Example.age_group Example.db "Paracetamol" 30 = Some 4000.
Proof.
  pose proof (dose_by_bracket Example.age_group Example.db "Paracetamol" 8)
    as (_ & _ & _ & Hchild & Hex8 & Hex30).
  pose proof (dose_by_bracket Example.age_group Example.db "Paracetamol" 30)
    as (_ & _ & _ & Hadult & _ & _).
  split; [apply Hex8; by left |].
  split; [apply Hex30; by split |].
  split.
  - rewrite (proj1 (Hchild _ eq_refl)); [done | by left].
  - rewrite (proj2 (Hadult _ eq_refl)); [done | by split].
Defined.

(** ** The loop of [check] *)

Section Check.

Variable age_group : Z → string.
Variable db : Database.
Variable age : Z.

Lemma foldl_insert_lookup {A V} (key : A → string) (val : string → V)
    (l : list A) (m : gmap string V) (nm : string) :
  foldl (λ m x, <[ key x := val (key x) ]> m) m l !! nm =
  if decide (nm ∈ key <$> l) then Some (val nm) else m !! nm.
Proof.
  revert m. induction l as [| x l IH]; intros m.
  { rewrite decide_False; [done | apply not_elem_of_nil]. }
  rewrite fmap_cons. simpl. rewrite IH.
  destruct (decide (nm ∈ key <$> l)) as [Hin | Hin].
  - rewrite decide_True; [done | by right].
  - destruct (decide (key x = nm)) as [<- | Hne].
    + rewrite decide_True by left. by rewrite lookup_insert_eq.
    + rewrite lookup_insert_ne by done.
      rewrite decide_False; [done |]. by intros [? | ?]%elem_of_cons.
Qed.

Lemma check_loop_recs (st : Analyzer.check_state) (items : list Entry) :
  (foldl (Analyzer.check_step age_group db age) st items).1 =
  foldl (λ m it, <[ drug it := guidance_for age_group db age (drug it) ]> m)
        st.1 items.
Proof.
  revert st. induction items as [| it items IH]; intros st; simpl; [done |].
  by rewrite IH.
Qed.

Lemma check_loop_warnings (st : Analyzer.check_state) (items : list Entry) :
  (foldl (Analyzer.check_step age_group db age) st items).2 =
  st.2 ++ omap (entry_warning age_group db age) items.
Proof.
  revert st. induction items as [| it items IH]; intros st; csimpl.
  { by rewrite app_nil_r. }
  rewrite IH. simpl. rewrite <- app_assoc. f_equal.
  fold (entry_warning age_group db age it).
  by destruct (entry_warning age_group db age it).
Qed.

Lemma check_warnings (items : list Entry) :
  warnings (Analyzer.check age_group db items age) =
  omap (entry_warning age_group db age) items.
Proof.
  unfold Analyzer.check.
  pose proof (check_loop_warnings (∅, []) items) as H.
  by destruct (foldl _ _ items).
Qed.

Lemma check_guidance (items : list Entry) (nm : string) :
  dosage_guidance (Analyzer.check age_group db items age) !! nm =
  if decide (nm ∈ drug <$> items)
  then Some (guidance_for age_group db age nm) else None.
Proof.
  unfold Analyzer.check.
  pose proof (check_loop_recs (∅, []) items) as H.
  destruct (foldl _ _ items) as [recs ws]. simpl in *. subst recs.
  by rewrite (foldl_insert_lookup drug (guidance_for age_group db age)).
Qed.

Lemma check_alternatives (items : list Entry) (nm : string) :
  result_alternatives (Analyzer.check age_group db items age) !! nm =
  if decide (nm ∈ drug <$> items)
  then Some (DrugDB.alternatives db nm) else None.
Proof.
  unfold Analyzer.check. destruct (foldl _ _ items) as [recs ws]. simpl.
  by rewrite (foldl_insert_lookup id (DrugDB.alternatives db)), list_fmap_id.
Qed.

Lemma check_interactions (items : list Entry) :
  result_interactions (Analyzer.check age_group db items age) =
  DrugDB.interactions_for db (drug <$> items).
Proof. unfold Analyzer.check. by destruct (foldl _ _ items). Qed.

Lemma truthy_int_spec (x : option Z) :
  truthy_int x = true ↔ ∃ z, x = Some z ∧ z ≠ 0.
Proof.
  destruct x as [z |]; simpl.
  - rewrite negb_true_iff, Z.eqb_neq. naive_solver.
  - naive_solver.
Qed.

Lemma truthy_int_false_spec (x : option Z) :
  truthy_int x = false ↔ absent_or_zero x.
Proof.
  unfold absent_or_zero. destruct x as [z |]; simpl.
  - rewrite negb_false_iff, Z.eqb_eq. naive_solver.
  - naive_solver.
Qed.

(** When [check] warns about an entry. *)
Lemma entry_warning_Some (it : Entry) (w : Warning) :
  entry_warning age_group db age it = Some w ↔
  ∃ d f m, dose_mg it = Some d ∧ frequency_per_day it = Some f ∧
           d ≠ 0 ∧ f ≠ 0 ∧
           DrugDB.max_daily_mg age_group db (drug it) age = Some m ∧
           m ≠ 0 ∧ m < d * f ∧
           w = {| warning_drug := drug it;
                  issue := Analyzer.issue_label;
                  computed_mg_per_day := d * f;
                  warning_max_daily_mg := m |}.
Proof.
  unfold entry_warning, Analyzer.warning_for, Analyzer.exceeds, Analyzer.total_of.
  destruct (dose_mg it) as [d |], (frequency_per_day it) as [f |],
    (DrugDB.max_daily_mg age_group db (drug it) age) as [m |]; simpl;
    try (split; [by repeat case_match | by intros (? & ? & ? & ? & ? & ?)]).
  - destruct (Z.eqb_spec d 0) as [-> | Hd]; simpl.
    { split; [done | intros (? & ? & ? & [= <-] & _ & ? & _); done]. }
    destruct (Z.eqb_spec f 0) as [-> | Hf]; simpl.
    { split; [done | intros (? & ? & ? & _ & [= <-] & _ & ? & _); done]. }
    assert (Hdf : d * f ≠ 0) by lia.
    destruct (Z.eqb_spec (d * f) 0) as [? | _]; [done |]. simpl.
    destruct (Z.eqb_spec m 0) as [-> | Hm]; simpl.
    { split; [done | intros (? & ? & ? & _ & _ & _ & _ & [= <-] & ? & _); done]. }
    destruct (Z.ltb_spec m (d * f)) as [Hlt | Hge].
    + split.
      * intros [= <-]. by exists d, f, m.
      * by intros (? & ? & ? & [= <-] & [= <-] & _ & _ & [= <-] & _ & _ & ->).
    + split; [done |].
      intros (? & ? & ? & [= <-] & [= <-] & _ & _ & [= <-] & _ & ? & _). lia.
  - destruct (negb (d =? 0) && negb (f =? 0)); simpl;
      (split; [done | by intros (? & ? & ? & _ & _ & _ & _ & ? & _)]).
Qed.

Lemma entry_warning_malformed (it : Entry) :
  absent_or_zero (dose_mg it) ∨ absent_or_zero (frequency_per_day it) →
  entry_warning age_group db age it = None.
Proof.
  intros Hbad. destruct (entry_warning age_group db age it) as [w |] eqn:Hw; [| done].
  apply entry_warning_Some in Hw as (d & f & m & Hd & Hf & ? & ? & _).
  destruct Hbad as [[? | ?] | [? | ?]]; congruence.
Qed.

End Check.

(** C1. The specification asks for a warning whenever the total is defined, the
    maximum is known and the total is above it. [check] tests the maximum by
    its truth value, so a configured maximum of 0 is taken as unknown: for a
    child, one 300 mg tablet of a drug whose maximum for children is 0 gives a
    total of 300, a known maximum of 0, and no warning. *)
Theorem zero_maximum_gives_no_warning (age_group : Z → string) (age : Z) :
  DrugDB.pediatric (age_group age) = true →
  let it := {| drug := "Aspirin"; dose_mg := Some 300; frequency_per_day := Some 1 |} in
  Analyzer.total_of (dose_mg it) (frequency_per_day it) = Some 300
  ∧ DrugDB.max_daily_mg age_group Example.db_zero (drug it) age = Some 0
  ∧ warnings (Analyzer.check age_group Example.db_zero [it] age) = [].
Proof.
  intros Hped. cbv zeta.
  assert (Hmax : DrugDB.max_daily_mg age_group Example.db_zero "Aspirin" age = Some 0).
  { rewrite max_daily_mg_bind, Hped. by vm_compute. }
  split; [by vm_compute |]. split; [exact Hmax |].
  rewrite check_warnings. unfold entry_warning. csimpl. by rewrite Hmax.
Qed.

Lemma zero_maximum_gives_no_warning_witness :
  warnings (Analyzer.check Example.age_group Example.db_zero
              [ {| drug := "Aspirin"; dose_mg := Some 300;
                   frequency_per_day := Some 1 |} ] 8) = [].
Proof.
  apply (zero_maximum_gives_no_warning Example.age_group 8).
  vm_compute. reflexivity.
Defined.

(** When [check] warns: the condition of the loop, entry by entry. Away from
    a maximum of 0 this is the condition of C1, with the boundary at equality
    on the side of silence. *)
Lemma check_warnings_spec (age_group : Z → string) (db : Database)
    (items : list Entry) (age : Z) (w : Warning) :
  w ∈ warnings (Analyzer.check age_group db items age) ↔
  ∃ it d f m, it ∈ items ∧ dose_mg it = Some d ∧ frequency_per_day it = Some f ∧
              d ≠ 0 ∧ f ≠ 0 ∧
              DrugDB.max_daily_mg age_group db (drug it) age = Some m ∧
              m ≠ 0 ∧ m < d * f ∧
              w = {| warning_drug := drug it;
                     issue := Analyzer.issue_label;
                     computed_mg_per_day := d * f;
                     warning_max_daily_mg := m |}.
Proof.
  rewrite check_warnings, list_elem_of_omap. split.
  - intros (it & Hit & (d & f & m & H)%entry_warning_Some). by exists it, d, f, m.
  - intros (it & d & f & m & Hit & H). exists it. split; [done |].
    apply entry_warning_Some. by exists d, f, m.
Qed.

(** C5. [check] is a function of the dataset, the entries and the age, and
    nothing else: it has no state to write to. For every list of entries,
    whatever their doses and frequencies, the result carries the dosage
    guidance and the alternatives of every entry; a warning comes only from an
    entry whose dose and frequency are both present and not zero; and an entry
    whose dose or frequency is absent or zero changes no warning of the
    result. *)
Theorem check_completes (age_group : Z → string) (db : Database)
    (items : list Entry) (age : Z) :
  let r := Analyzer.check age_group db items age in
  (∀ e, e ∈ items →
     dosage_guidance r !! drug e = Some (guidance_for age_group db age (drug e))
     ∧ result_alternatives r !! drug e = Some (DrugDB.alternatives db (drug e)))
  ∧ (∀ w, w ∈ warnings r →
       ∃ e d f, e ∈ items ∧ warning_drug w = drug e ∧
                dose_mg e = Some d ∧ frequency_per_day e = Some f ∧
                d ≠ 0 ∧ f ≠ 0 ∧ computed_mg_per_day w = d * f)
  ∧ (∀ l1 e l2,
       items = l1 ++ e :: l2 →
       absent_or_zero (dose_mg e) ∨ absent_or_zero (frequency_per_day e) →
       warnings r = warnings (Analyzer.check age_group db (l1 ++ l2) age)).
Proof.
  simpl. split; [| split].
  - intros e He.
    assert (Hin : drug e ∈ drug <$> items) by (apply list_elem_of_fmap; by exists e).
    rewrite check_guidance, check_alternatives. by rewrite !decide_True.
  - intros w (e & d & f & m & ? & ? & ? & ? & ? & _ & _ & _ & ->)%check_warnings_spec.
    by exists e, d, f.
  - intros l1 e l2 -> Hbad. rewrite !check_warnings, !omap_app. csimpl.
    by rewrite (entry_warning_malformed _ _ _ _ Hbad).
Qed.

Lemma check_completes_witness :
  let items := [ {| drug := "Paracetamol"; dose_mg := None;
                    frequency_per_day := Some 4 |};
                 {| drug := "Warfarin"; dose_mg := Some 5;
                    frequency_per_day := Some 0 |} ] in
  dosage_guidance (Analyzer.check Example.age_group Example.db items 30)
    !! "Paracetamol"%string
  = Some {| recommended_dose_for_age := Some "500mg q6h"%string;
            guidance_max_daily_mg := Some 4000 |}
  ∧ warnings (Analyzer.check Example.age_group Example.db items 30) = [].
Proof.
  intros items.
  pose proof (check_completes Example.age_group Example.db items 30)
    as (Hguid & _ & Hskip).
  split.
  - apply (Hguid {| drug := "Paracetamol"; dose_mg := None;
                    frequency_per_day := Some 4 |}). left.
  - rewrite (Hskip [ {| drug := "Paracetamol"; dose_mg := None;
                        frequency_per_day := Some 4 |} ]
                   {| drug := "Warfarin"; dose_mg := Some 5;
                      frequency_per_day := Some 0 |} [] eq_refl)
      by (right; by right).
    by vm_compute.
Defined.

(** C10. The field [drugs_parsed] of the result is the list of entries that
    [check] received. *)
Theorem check_returns_entries (age_group : Z → string) (db : Database)
    (items : list Entry) (age : Z) :
  drugs_parsed (Analyzer.check age_group db items age) = items.
Proof. unfold Analyzer.check. by destruct (foldl _ _ items). Qed.

(** ** Names that do not resolve *)

Section Unknown.

Variable db : Database.
Hypothesis Htrim : names_trimmed db.
Hypothesis Hrefer : tables_refer_to_records db.

Lemma unresolved_not_record (nm : string) :
  DrugDB.normalize db nm = None → nm ∉ name <$> drugs db.
Proof.
  intros Hnone (d & -> & Hd)%list_elem_of_fmap.
  destruct (normalize_record_name db d Htrim Hd) as [c Hc]. congruence.
Qed.

Lemma table_name_record (nm : string) :
  nm ∈ table_names db → nm ∈ name <$> drugs db.
Proof. apply (proj1 (Forall_forall _ _) Hrefer). Qed.

Lemma unresolved_no_limit (nm : string) :
  DrugDB.normalize db nm = None →
  default ∅ (max_daily_dose_mg db) !! nm = None.
Proof.
  intros Hnone%unresolved_not_record.
  apply not_elem_of_dom. intros Hdom. apply Hnone, table_name_record.
  unfold table_names. apply elem_of_app. left. by apply elem_of_elements.
Qed.

Lemma unresolved_no_alternatives (nm : string) :
  DrugDB.normalize db nm = None → DrugDB.alternatives db nm = [].
Proof.
  intros Hnone%unresolved_not_record. unfold DrugDB.alternatives.
  replace (default ∅ (alternatives_tbl db) !! nm) with (@None (list string));
    [done |].
  symmetry. apply not_elem_of_dom. intros Hdom. apply Hnone, table_name_record.
  unfold table_names. rewrite !elem_of_app. right. left.
  by apply elem_of_elements.
Qed.

Lemma unresolved_no_interaction (nm : string) (it : Interaction) :
  DrugDB.normalize db nm = None → it ∈ interactions db → nm ∉ pair it.
Proof.
  intros Hnone%unresolved_not_record Hit Hnm.
  apply Hnone, table_name_record.
  unfold table_names. rewrite !elem_of_app. right. right.
  apply list_elem_of_In, in_concat. exists (pair it).
  split; apply list_elem_of_In; [| done].
  apply list_elem_of_fmap. by exists it.
Qed.

End Unknown.

(** C6 (as amended). [check] looks every name up verbatim, without resolving
    it. In a dataset whose record names carry no outer white space and whose
    tables mention names of drug records only, an entry whose name does not
    resolve gets a dosage guidance with both fields [None] and an empty list
    of alternatives, occurs in no interaction record of the result, and is
    still in the returned entries. *)
Theorem check_unknown_drug (age_group : Z → string) (db : Database)
    (items : list Entry) (age : Z) (e : Entry) :
  names_trimmed db → tables_refer_to_records db →
  e ∈ items → DrugDB.normalize db (drug e) = None →
  let r := Analyzer.check age_group db items age in
  dosage_guidance r !! drug e
  = Some {| recommended_dose_for_age := None; guidance_max_daily_mg := None |}
  ∧ result_alternatives r !! drug e = Some []
  ∧ (∀ it, it ∈ result_interactions r → drug e ∉ pair it)
  ∧ e ∈ drugs_parsed r.
Proof.
  intros Htrim Hrefer He Hnone. cbv zeta.
  assert (Hin : drug e ∈ drug <$> items) by (apply list_elem_of_fmap; by exists e).
  rewrite check_guidance, check_alternatives, check_interactions,
    !decide_True by done.
  split; [| split; [| split]].
  - unfold guidance_for, DrugDB.default_dose_for_age.
    rewrite (proj2 (find_record_None _ _) (unresolved_not_record db Htrim _ Hnone)).
    by rewrite max_daily_mg_bind, (unresolved_no_limit db Htrim Hrefer _ Hnone).
  - by rewrite (unresolved_no_alternatives db Htrim Hrefer _ Hnone).
  - intros it Hit. rewrite interactions_for_filter in Hit.
    apply list_elem_of_filter in Hit as [_ Hit].
    by apply (unresolved_no_interaction db Htrim Hrefer).
  - unfold Analyzer.check. by destruct (foldl _ _ items).
Qed.

Lemma check_unknown_drug_witness :
  let e := {| drug := "Aspirine"; dose_mg := Some 500; frequency_per_day := Some 3 |} in
  let items := [ {| drug := "Paracetamol"; dose_mg := Some 500;
                    frequency_per_day := Some 4 |}; e ] in
  let r := Analyzer.check Example.age_group Example.db3 items 30 in
  dosage_guidance r !! "Aspirine"%string
  = Some {| recommended_dose_for_age := None; guidance_max_daily_mg := None |}
  ∧ result_alternatives r !! "Aspirine"%string = Some []
  ∧ (∀ it, it ∈ result_interactions r → "Aspirine"%string ∉ pair it)
  ∧ e ∈ drugs_parsed r.
Proof.
  intros e items.
  apply (check_unknown_drug Example.age_group Example.db3 items 30 e).
  - apply (bool_decide_unpack _). vm_compute. exact I.
  - apply (bool_decide_unpack _). vm_compute. exact I.
  - right. left.
  - vm_compute. reflexivity.
Defined.

(** C6. As the specification states it, the property fails: a name that does
    not resolve gets the maximum, the alternatives and the interaction that
    the tables hold under that very name, and the doses of a record whose
    name carries outer white space. *)
Lemma check_unresolved_name_found_verbatim :
  let orphan := Analyzer.check Example.age_group Example.db_orphan
                  [ {| drug := "Paracetamol"; dose_mg := None;
                       frequency_per_day := None |};
                    {| drug := "Warfarin"; dose_mg := None;
                       frequency_per_day := None |} ] 30 in
  let padded := Analyzer.check Example.age_group Example.db_padded
                  [ {| drug := "Paracetamol "; dose_mg := None;
                       frequency_per_day := None |} ] 30 in
  (DrugDB.normalize Example.db_orphan "Warfarin" = None
   ∧ dosage_guidance orphan !! "Warfarin"%string
     = Some {| recommended_dose_for_age := None; guidance_max_daily_mg := Some 10 |}
   ∧ result_alternatives orphan !! "Warfarin"%string = Some ["Heparin"%string]
   ∧ result_interactions orphan = [Example.paracetamol_warfarin])
  ∧ (DrugDB.normalize Example.db_padded "Paracetamol " = None
     ∧ dosage_guidance padded !! "Paracetamol "%string
       = Some {| recommended_dose_for_age := Some "500mg q6h"%string;
                 guidance_max_daily_mg := None |}).
Proof. cbv zeta. repeat split; by vm_compute. Qed.

(** ** Extraction of the entries *)

(** C4 (as amended). A non-empty explicit list is used alone, whatever the
    text: each of its entries gives one entry of the result, in order, with
    the same dose and frequency, whose name is the raw name when the raw name
    does not resolve and the resolved name when it resolves to a non-empty
    name. Without an explicit list, a non-empty text gives the list of the
    fallback parser as the parser returns it, and no text gives the empty
    list. *)
Theorem extract_precedence (pipe : option (string → string + string))
    (parse_prescription : string → Database → list Entry)
    (db : Database) (text : option string) (explicit_drugs : option (list RawEntry)) :
  let result := Analyzer.extract pipe parse_prescription db text explicit_drugs in
  (∀ d ds, explicit_drugs = Some (d :: ds) →
     result = Analyzer.clean db <$> (d :: ds)
     ∧ length result = length (d :: ds)
     ∧ ∀ i raw, (d :: ds) !! i = Some raw →
         ∃ e, result !! i = Some e
              ∧ dose_mg e = raw_dose_mg raw
              ∧ frequency_per_day e = raw_frequency_per_day raw
              ∧ (DrugDB.normalize db (default EmptyString (raw_drug raw)) = None →
                 drug e = default EmptyString (raw_drug raw))
              ∧ (∀ nm, DrugDB.normalize db (default EmptyString (raw_drug raw)) = Some nm →
                       nm ≠ EmptyString → drug e = nm))
  ∧ (explicit_drugs = None ∨ explicit_drugs = Some [] →
     (∀ t, text = Some t → t ≠ EmptyString → result = parse_prescription t db)
     ∧ (text = None ∨ text = Some EmptyString → result = [])).
Proof.
  cbv zeta. split.
  - intros d ds ->. unfold Analyzer.extract.
    split; [done |]. split; [by rewrite length_fmap |].
    intros i raw Hraw. exists (Analyzer.clean db raw).
    split; [by rewrite list_lookup_fmap, Hraw |].
    unfold Analyzer.clean; simpl. repeat split.
    + by intros ->.
    + intros nm -> Hnm. simpl. by rewrite bool_decide_false.
  - intros Hnone. unfold Analyzer.extract.
    assert (Hgranite : ∀ t, GraniteClient.nonempty_list
                              (GraniteClient.extract_drug_info pipe t) = None).
    { intros t. unfold GraniteClient.extract_drug_info.
      destruct pipe as [run |]; [| done]. by destruct (run _). }
    destruct Hnone as [-> | ->]; (split;
      [ intros t -> Ht; destruct t; [done |]; simpl; by rewrite Hgranite
      | by intros [-> | ->] ]).
Qed.

Lemma extract_precedence_witness :
  Analyzer.extract None Example.parse_verbatim Example.db (Some "Ibuprofen 400 mg"%string)
    (Some [ {| raw_drug := Some "ACETAMINOPHEN"%string; raw_dose_mg := Some 500;
               raw_frequency_per_day := Some 4 |};
            {| raw_drug := Some "Aspirine"%string; raw_dose_mg := None;
               raw_frequency_per_day := None |} ])
  = [ {| drug := "Paracetamol"; dose_mg := Some 500; frequency_per_day := Some 4 |};
      {| drug := "Aspirine"; dose_mg := None; frequency_per_day := None |} ].
Proof.
  rewrite (proj1 (proj1 (extract_precedence None Example.parse_verbatim Example.db
                           (Some "Ibuprofen 400 mg"%string) _) _ _ eq_refl)).
  vm_compute. reflexivity.
Defined.

(** C4. As the specification states it, the property fails: the entries that
    come from the text are returned as the parser gives them; [extract] does
    not resolve their names. *)
Lemma extract_text_not_normalized :
  Analyzer.extract None Example.parse_verbatim Example.db
    (Some "acetaminophen"%string) None
  = [ {| drug := "acetaminophen"; dose_mg := None; frequency_per_day := None |} ]
  ∧ DrugDB.normalize Example.db "acetaminophen" = Some "Paracetamol"%string.
Proof. split; by vm_compute. Qed.

(** * Further properties of the code *)

(** ** [lower] and [strip] *)

Section StrFacts.

Lemma lower_ascii_idem (c : ascii) :
  Str.lower_ascii (Str.lower_ascii c) = Str.lower_ascii c.
Proof. destruct c as [[] [] [] [] [] [] [] []]; reflexivity. Qed.

Lemma is_space_lower_ascii (c : ascii) :
  Str.is_space (Str.lower_ascii c) = Str.is_space c.
Proof. destruct c as [[] [] [] [] [] [] [] []]; reflexivity. Qed.

Lemma lower_idem (s : string) : Str.lower (Str.lower s) = Str.lower s.
Proof.
  induction s as [| c s IH]; simpl; [done |].
  by rewrite lower_ascii_idem, IH.
Qed.

Lemma lstrip_lower (s : string) : Str.lstrip (Str.lower s) = Str.lower (Str.lstrip s).
Proof.
  induction s as [| c s IH]; simpl; [done |].
  rewrite is_space_lower_ascii. by destruct (Str.is_space c).
Qed.

Lemma rstrip_lower (s : string) : Str.rstrip (Str.lower s) = Str.lower (Str.rstrip s).
Proof.
  induction s as [| c s IH]; simpl; [done |].
  rewrite IH, is_space_lower_ascii.
  destruct (Str.rstrip s); simpl; [by destruct (Str.is_space c) | done].
Qed.

Lemma strip_lower (s : string) : Str.strip (Str.lower s) = Str.lower (Str.strip s).
Proof. unfold Str.strip. by rewrite lstrip_lower, rstrip_lower. Qed.

Lemma rstrip_idem (s : string) : Str.rstrip (Str.rstrip s) = Str.rstrip s.
Proof.
  induction s as [| c s IH]; simpl; [done |].
  destruct (Str.rstrip s) as [| c' r] eqn:Hr.
  - destruct (Str.is_space c) eqn:Hc; simpl; [done | by rewrite Hc].
  - change (Str.rstrip (String c (String c' r))) with
      (match Str.rstrip (String c' r) with
       | EmptyString => if Str.is_space c then EmptyString else String c EmptyString
       | r' => String c r'
       end).
    by rewrite IH.
Qed.

(** A string that does not start with white space keeps its start. *)
Lemma lstrip_rstrip_lstrip (s : string) :
  Str.lstrip (Str.rstrip (Str.lstrip s)) = Str.rstrip (Str.lstrip s).
Proof.
  induction s as [| c s IH]; simpl; [done |].
  destruct (Str.is_space c) eqn:Hc; [done |].
  simpl. destruct (Str.rstrip s); rewrite ?Hc; simpl; by rewrite Hc.
Qed.

Lemma strip_idem (s : string) : Str.strip (Str.strip s) = Str.strip s.
Proof. unfold Str.strip. by rewrite lstrip_rstrip_lstrip, rstrip_idem. Qed.

End StrFacts.

(** ** [normalize] and [list_drugs] *)

(** In a dataset with trimmed and unambiguous names, the name of a record
    resolves to itself. *)
Lemma normalize_record_fixed (db : Database) (d : DrugRecord) :
  names_trimmed db → names_unambiguous db → d ∈ drugs db →
  DrugDB.normalize db (name d) = Some (name d).
Proof.
  intros Htrim Hunamb Hd.
  destruct (normalize_record_name db d Htrim Hd) as [c Hc].
  rewrite Hc. f_equal. unfold DrugDB.normalize in Hc.
  rewrite (proj1 (Forall_forall _ _) Htrim d Hd) in Hc.
  apply normalize_loop_name in Hc as (d' & Hd' & Hm & ->).
  pose proof (proj1 (Forall_forall _ _) Hunamb d Hd) as Hall.
  apply (proj1 (Forall_forall _ _) Hall d' Hd'). by rewrite Hm.
Qed.

(** X1. Whatever the dataset, a name returned by [normalize] is one of the
    names returned by [list_drugs]: an alias is never returned. *)
Theorem normalize_returns_listed_drug (db : Database) (x c : string) :
  DrugDB.normalize db x = Some c → c ∈ DrugDB.list_drugs db.
Proof.
  intros (d & Hd & _ & ->)%normalize_loop_name.
  apply list_elem_of_fmap. by exists d.
Qed.

Lemma normalize_returns_listed_drug_witness :
  "Paracetamol"%string ∈ DrugDB.list_drugs Example.db.
Proof.
  apply (normalize_returns_listed_drug Example.db "acetaminophen").
  vm_compute. reflexivity.
Defined.

(** X2. [normalize] does not see the case of its argument nor the white space
    around it: lower-casing or trimming the argument beforehand changes
    nothing. *)
Theorem normalize_ignores_case_and_padding (db : Database) (x : string) :
  DrugDB.normalize db (Str.lower x) = DrugDB.normalize db x
  ∧ DrugDB.normalize db (Str.strip x) = DrugDB.normalize db x
  ∧ DrugDB.normalize db (Str.strip (Str.lower x)) = DrugDB.normalize db x.
Proof.
  unfold DrugDB.normalize. split; [| split].
  - by rewrite lower_idem.
  - by rewrite <- strip_lower, strip_idem.
  - by rewrite <- strip_lower, lower_idem, strip_idem.
Qed.

(** X3. In a dataset whose record names carry no outer white space and are
    matched only by records of the same name, every name of [list_drugs]
    resolves to itself, so the names that [normalize] can return are exactly
    those of [list_drugs]. *)
Theorem list_drugs_normalize_round_trip (db : Database) (c : string) :
  names_trimmed db → names_unambiguous db →
  (c ∈ DrugDB.list_drugs db → DrugDB.normalize db c = Some c)
  ∧ (c ∈ DrugDB.list_drugs db ↔ ∃ x, DrugDB.normalize db x = Some c).
Proof.
  intros Htrim Hunamb.
  assert (Hfix : c ∈ DrugDB.list_drugs db → DrugDB.normalize db c = Some c).
  { intros (d & -> & Hd)%list_elem_of_fmap. by apply normalize_record_fixed. }
  split; [done |]. split.
  - intros Hc. exists c. by apply Hfix.
  - intros (x & (d & Hd & _ & ->)%normalize_loop_name).
    apply list_elem_of_fmap. by exists d.
Qed.

Lemma list_drugs_normalize_round_trip_witness :
  DrugDB.normalize Example.db3 "Ibuprofen" = Some "Ibuprofen"%string.
Proof.
  apply (list_drugs_normalize_round_trip Example.db3 "Ibuprofen").
  - apply (bool_decide_unpack _). vm_compute. exact I.
  - apply (bool_decide_unpack _). vm_compute. exact I.
  - right. right. left.
Defined.

(** ** More on [interactions_for] *)

Lemma filter_submseteq_impl {A} (P Q : A → Prop)
    `{!∀ x, Decision (P x)} `{!∀ x, Decision (Q x)} (l : list A) :
  (∀ x, P x → Q x) → filter P l ⊆+ filter Q l.
Proof.
  intros HPQ. rewrite <- (list_filter_filter_l P Q l HPQ).
  apply sublist_submseteq, sublist_filter.
Qed.

(** X4. Adding names to the input only adds records to the result of
    [interactions_for], and the result never holds more than the table: it is
    a sub-multiset of the interaction table. *)
Theorem interactions_for_monotone (db : Database) (names names' : list string) :
  names ⊆ names' →
  DrugDB.interactions_for db names ⊆+ DrugDB.interactions_for db names'
  ∧ DrugDB.interactions_for db names' ⊆+ interactions db
  ∧ (length (DrugDB.interactions_for db names')
     ≤ length (interactions db))%nat.
Proof.
  intros Hsub.
  assert (Htbl : DrugDB.interactions_for db names' ⊆+ interactions db).
  { rewrite interactions_for_filter. apply sublist_submseteq, sublist_filter. }
  split; [| split; [done | by apply submseteq_length]].
  rewrite !interactions_for_filter. apply filter_submseteq_impl.
  intros it [Hsz Hin]. split; [done |].
  intros x Hx. apply elem_of_list_to_set, Hsub.
  apply (elem_of_list_to_set (C:=gset string)). by apply Hin.
Qed.

Lemma interactions_for_monotone_witness :
  DrugDB.interactions_for Example.db3 ["Warfarin"; "Paracetamol"]%string
  ⊆+ DrugDB.interactions_for Example.db3
       ["Ibuprofen"; "Paracetamol"; "Warfarin"]%string.
Proof.
  apply (interactions_for_monotone Example.db3).
  intros x. rewrite !elem_of_cons. tauto.
Defined.

(** X5. [interactions_for] needs two distinct names: on an input whose names
    are all equal (none, one name, or one name repeated) the result is
    empty, whatever the table. *)
Theorem interactions_for_needs_two_names (db : Database) (names : list string) :
  (∀ x y, x ∈ names → y ∈ names → x = y) →
  DrugDB.interactions_for db names = [].
Proof.
  intros Hone. apply Permutation_nil_r. rewrite interactions_for_filter.
  rewrite filter_none; [done |].
  intros it (a & b & Ha & Hb & Hne & _)%interacting_iff. by apply Hne, Hone.
Qed.

Lemma interactions_for_needs_two_names_witness :
  DrugDB.interactions_for Example.db ["Warfarin"; "Warfarin"]%string = [].
Proof.
  apply (interactions_for_needs_two_names Example.db).
  intros x y. rewrite !elem_of_cons, !elem_of_nil. intuition congruence.
Defined.

(** ** More on [check] *)

Section CheckFacts.

Variable age_group : Z → string.
Variable db : Database.
Variable age : Z.

Lemma length_omap_le {A B} (f : A → option B) (l : list A) :
  (length (omap f l) ≤ length l)%nat.
Proof.
  induction l as [| x l IH]; csimpl; [done |].
  destruct (f x); simpl; lia.
Qed.

Lemma check_step_bracket (age_group' : Z → string) (age' : Z) :
  DrugDB.pediatric (age_group age) = DrugDB.pediatric (age_group' age') →
  ∀ st it, Analyzer.check_step age_group db age st it
           = Analyzer.check_step age_group' db age' st it.
Proof.
  intros Hped st it. unfold Analyzer.check_step.
  rewrite !max_daily_mg_bind. unfold DrugDB.default_dose_for_age.
  by rewrite Hped.
Qed.

Lemma foldl_ext_all {A B} (f g : A → B → A) (l : list B) (a : A) :
  (∀ a x, f a x = g a x) → foldl f a l = foldl g a l.
Proof.
  intros Hfg. revert a. induction l as [| x l IH]; intros a; simpl; [done |].
  by rewrite Hfg, IH.
Qed.

End CheckFacts.

(** X6. The dictionaries [dosage_guidance] and [alternatives] of the result
    of [check] have one key for each distinct drug name of the entries, and
    no other key. *)
Theorem check_keys (age_group : Z → string) (db : Database)
    (items : list Entry) (age : Z) :
  let r := Analyzer.check age_group db items age in
  dom (dosage_guidance r) = list_to_set (drug <$> items)
  ∧ dom (result_alternatives r) = list_to_set (drug <$> items).
Proof.
  cbv zeta. split; apply set_eq; intros nm;
    rewrite elem_of_dom, elem_of_list_to_set.
  - rewrite check_guidance. case_decide; [| split; [by intros [] | done]].
    split; [done | by eexists].
  - rewrite check_alternatives. case_decide; [| split; [by intros [] | done]].
    split; [done | by eexists].
Qed.

(** X7. [check] judges every entry alone: the warnings of a list of entries
    are the warnings of its first part followed by those of the rest, so two
    entries of one drug are never added up, and there is at most one warning
    for each entry. *)
Theorem check_warnings_app (age_group : Z → string) (db : Database)
    (l1 l2 : list Entry) (age : Z) :
  warnings (Analyzer.check age_group db (l1 ++ l2) age)
  = warnings (Analyzer.check age_group db l1 age)
    ++ warnings (Analyzer.check age_group db l2 age)
  ∧ (length (warnings (Analyzer.check age_group db (l1 ++ l2) age))
     ≤ length l1 + length l2)%nat.
Proof.
  rewrite !check_warnings, omap_app. split; [done |].
  rewrite length_app.
  pose proof (length_omap_le (entry_warning age_group db age) l1).
  pose proof (length_omap_le (entry_warning age_group db age) l2). lia.
Qed.

(** X8. The order of the entries matters only for the order of the lists
    of the result: permuting the entries leaves the two dictionaries
    unchanged and permutes the warnings and the interactions. *)
Theorem check_permutation (age_group : Z → string) (db : Database)
    (items items' : list Entry) (age : Z) :
  items ≡ₚ items' →
  let r := Analyzer.check age_group db items age in
  let r' := Analyzer.check age_group db items' age in
  dosage_guidance r = dosage_guidance r'
  ∧ result_alternatives r = result_alternatives r'
  ∧ warnings r ≡ₚ warnings r'
  ∧ result_interactions r ≡ₚ result_interactions r'.
Proof.
  intros Hperm. cbv zeta.
  assert (Hin : ∀ nm, nm ∈ drug <$> items ↔ nm ∈ drug <$> items').
  { intros nm. by rewrite Hperm. }
  split; [| split; [| split]].
  - apply map_eq. intros nm. rewrite !check_guidance. apply decide_ext, Hin.
  - apply map_eq. intros nm. rewrite !check_alternatives. apply decide_ext, Hin.
  - rewrite !check_warnings. by rewrite Hperm.
  - rewrite !check_interactions, !interactions_for_filter.
    erewrite list_filter_iff; [done |].
    intros it. apply interacting_same_names. apply set_eq. intros nm.
    rewrite !elem_of_list_to_set. apply Hin.
Qed.

Lemma check_permutation_witness :
  let e1 := {| drug := "Paracetamol"; dose_mg := Some 1500;
               frequency_per_day := Some 4 |} in
  let e2 := {| drug := "Warfarin"; dose_mg := Some 5;
               frequency_per_day := Some 1 |} in
  dosage_guidance (Analyzer.check Example.age_group Example.db [e1; e2] 30)
  = dosage_guidance (Analyzer.check Example.age_group Example.db [e2; e1] 30).
Proof.
  intros e1 e2.
  apply (check_permutation Example.age_group Example.db [e1; e2] [e2; e1] 30).
  apply perm_swap.
Defined.

(** X9. [check] uses the age only to choose between the child and the adult
    columns: two ages (or two classifiers) that agree on whether the bracket
    is "child" or "adolescent" give the same result, so "child" and
    "adolescent" are treated alike. *)
Theorem check_depends_on_bracket (age_group age_group' : Z → string)
    (db : Database) (items : list Entry) (age age' : Z) :
  DrugDB.pediatric (age_group age) = DrugDB.pediatric (age_group' age') →
  Analyzer.check age_group db items age = Analyzer.check age_group' db items age'.
Proof.
  intros Hped. unfold Analyzer.check.
  by rewrite (foldl_ext_all _ _ items _ (check_step_bracket age_group db age _ _ Hped)).
Qed.

Lemma check_depends_on_bracket_witness :
  let items := [ {| drug := "Paracetamol"; dose_mg := Some 1000;
                    frequency_per_day := Some 3 |} ] in
  Analyzer.check Example.age_group Example.db items 5
  = Analyzer.check Example.age_group Example.db items 15.
Proof.
  intros items.
  apply (check_depends_on_bracket Example.age_group Example.age_group
           Example.db items 5 15).
  vm_compute. reflexivity.
Defined.

(** X10. Every warning of [check] is justified: it carries the fixed label,
    it names a drug of the entries, its maximum is the one that
    [max_daily_mg] gives for that drug and age and is not 0, and its total is
    the product of a dose and a frequency of an entry of that drug and is
    above the maximum. *)
Theorem check_warning_sound (age_group : Z → string) (db : Database)
    (items : list Entry) (age : Z) (w : Warning) :
  w ∈ warnings (Analyzer.check age_group db items age) →
  issue w = "Dose exceeds max daily limit"%string
  ∧ DrugDB.max_daily_mg age_group db (warning_drug w) age
    = Some (warning_max_daily_mg w)
  ∧ warning_max_daily_mg w ≠ 0
  ∧ warning_max_daily_mg w < computed_mg_per_day w
  ∧ ∃ it d f, it ∈ items ∧ drug it = warning_drug w
              ∧ dose_mg it = Some d ∧ frequency_per_day it = Some f
              ∧ computed_mg_per_day w = d * f.
Proof.
  intros (it & d & f & m & Hit & Hd & Hf & _ & _ & Hm & Hm0 & Hlt & ->)%check_warnings_spec.
  simpl. repeat split; [done .. |]. by exists it, d, f.
Qed.

Lemma check_warning_sound_witness :
  let w := {| warning_drug := "Paracetamol";
              issue := "Dose exceeds max daily limit";
              computed_mg_per_day := 4001;
              warning_max_daily_mg := 4000 |} in
  DrugDB.max_daily_mg Example.age_group Example.db (warning_drug w) 30
  = Some (warning_max_daily_mg w).
Proof.
  intros w.
  apply (check_warning_sound Example.age_group Example.db
           [ {| drug := "Paracetamol"; dose_mg := Some 4001;
                frequency_per_day := Some 1 |} ] 30 w).
  vm_compute. left.
Defined.

Lemma total_of_opp (dose freq : option Z) :
  Analyzer.total_of (Z.opp <$> dose) (Z.opp <$> freq) = Analyzer.total_of dose freq.
Proof.
  unfold Analyzer.total_of. destruct dose as [d |], freq as [f |]; simpl; try done.
  - replace (- d =? 0) with (d =? 0) by (destruct (Z.eqb_spec d 0), (Z.eqb_spec (- d) 0); lia).
    replace (- f =? 0) with (f =? 0) by (destruct (Z.eqb_spec f 0), (Z.eqb_spec (- f) 0); lia).
    by rewrite Z.mul_opp_opp.
  - by rewrite !andb_false_r.
Qed.

(** X11. [check] does not look at the signs of the dose and of the
    frequency, only at their product: changing both signs in every entry
    changes no warning, so a negative dose with a negative frequency is
    warned about like the positive ones. *)
Theorem check_ignores_signs (age_group : Z → string) (db : Database)
    (items : list Entry) (age : Z) :
  warnings (Analyzer.check age_group db (opposite <$> items) age)
  = warnings (Analyzer.check age_group db items age).
Proof.
  rewrite !check_warnings.
  induction items as [| it items IH]; csimpl; [done |].
  rewrite IH. unfold entry_warning at 1 3. simpl. by rewrite total_of_opp.
Qed.

(** ** More on [extract] *)

(** X12. The text-generation model never contributes to the result of
    [extract]: [extract_drug_info] returns the empty list, a text or an error,
    never a non-empty list, so the result is the same with any pipeline, loaded
    or not. *)
Theorem extract_ignores_pipeline (pipe pipe' : option (string → string + string))
    (parse_prescription : string → Database → list Entry)
    (db : Database) (text : option string) (explicit_drugs : option (list RawEntry)) :
  (∀ t, GraniteClient.nonempty_list (GraniteClient.extract_drug_info pipe t) = None)
  ∧ Analyzer.extract pipe parse_prescription db text explicit_drugs
    = Analyzer.extract pipe' parse_prescription db text explicit_drugs.
Proof.
  assert (Hdead : ∀ p t, GraniteClient.nonempty_list
                           (GraniteClient.extract_drug_info p t) = None).
  { intros p t. unfold GraniteClient.extract_drug_info.
    destruct p as [run |]; [| done]. by destruct (run _). }
  split; [apply Hdead |]. unfold Analyzer.extract.
  destruct explicit_drugs as [[| d ds] |]; try done;
    (destruct (Analyzer.truthy_text text); [by rewrite !Hdead | done]).
Qed.

Lemma clean_as_raw_clean (db : Database) (d : RawEntry) :
  names_trimmed db → names_unambiguous db →
  Analyzer.clean db (as_raw (Analyzer.clean db d)) = Analyzer.clean db d.
Proof.
  intros Htrim Hunamb. unfold Analyzer.clean, as_raw. simpl. f_equal.
  set (raw := default EmptyString (raw_drug d)).
  destruct (DrugDB.normalize db raw) as [c |] eqn:Hraw; simpl.
  - case_bool_decide as Hc; [by rewrite Hraw; simpl; rewrite bool_decide_true |].
    apply normalize_loop_name in Hraw as (d' & Hd' & _ & ->).
    rewrite normalize_record_fixed by done. simpl. by rewrite bool_decide_false.
  - by rewrite Hraw.
Qed.

(** X13. In a dataset whose record names carry no outer white space and are
    matched only by records of the same name, [extract] is idempotent on
    explicit lists: handing its result back as the explicit list gives the
    same result. *)
Theorem extract_idempotent (pipe : option (string → string + string))
    (parse_prescription : string → Database → list Entry)
    (db : Database) (text text' : option string) (explicit_drugs : list RawEntry) :
  names_trimmed db → names_unambiguous db →
  let result := Analyzer.extract pipe parse_prescription db text (Some explicit_drugs) in
  explicit_drugs ≠ [] →
  Analyzer.extract pipe parse_prescription db text' (Some (as_raw <$> result))
  = result.
Proof.
  intros Htrim Hunamb. cbv zeta. intros Hne.
  destruct explicit_drugs as [| d ds]; [done |].
  unfold Analyzer.extract. rewrite !fmap_cons.
  rewrite clean_as_raw_clean by done. f_equal.
  rewrite <- !list_fmap_compose. apply list_fmap_ext.
  intros i d' _. simpl. by apply clean_as_raw_clean.
Qed.

Lemma extract_idempotent_witness :
  let explicit := [ {| raw_drug := Some "ACETAMINOPHEN"%string;
                       raw_dose_mg := Some 500;
                       raw_frequency_per_day := Some 4 |};
                    {| raw_drug := None; raw_dose_mg := None;
                       raw_frequency_per_day := None |} ] in
  Analyzer.extract None Example.parse_verbatim Example.db3 None
    (Some (as_raw <$> Analyzer.extract None Example.parse_verbatim Example.db3
                        (Some "Ibuprofen"%string) (Some explicit)))
  = Analyzer.extract None Example.parse_verbatim Example.db3
      (Some "Ibuprofen"%string) (Some explicit).
Proof.
  intros explicit.
  apply (extract_idempotent None Example.parse_verbatim Example.db3
           (Some "Ibuprofen"%string) None explicit).
  - apply (bool_decide_unpack _). vm_compute. exact I.
  - apply (bool_decide_unpack _). vm_compute. exact I.
  - done.
Defined.

(** ** The form *)

Section Form.

Lemma int_or_none_nonzero (x : Z) : App.int_or_none x ≠ Some 0.
Proof. unfold App.int_or_none. destruct (Z.eqb_spec x 0); congruence. Qed.

Lemma run_snoc (evs : list App.event) (ev : App.event) :
  App.run (evs ++ [ev]) = App.step (App.run evs) ev.
Proof. unfold App.run. by rewrite foldl_app. Qed.

End Form.

(** X14. Whatever the user clicks, every entry of the list of manual drugs
    names a drug and has no dose and no frequency equal to 0: a widget left at
    0 is sent as [None]. After "Clear Drugs" the list holds the drugs added
    since, in the order of their addition. *)
Theorem manual_drugs_invariant (evs evs' : list App.event) :
  (∀ e, e ∈ App.run evs →
        is_Some (raw_drug e)
        ∧ raw_dose_mg e ≠ Some 0
        ∧ raw_frequency_per_day e ≠ Some 0)
  ∧ App.run (evs ++ App.ClearDrugs :: evs') = App.run evs'.
Proof.
  split.
  - induction evs as [| ev evs IH] using rev_ind; [by intros e ?%elem_of_nil |].
    rewrite run_snoc. destruct ev as [nm dose freq |]; simpl.
    + intros e [He | ->%list_elem_of_singleton]%elem_of_app; [by apply IH |].
      simpl. repeat split; [by eexists | apply int_or_none_nonzero ..].
    + by intros e ?%elem_of_nil.
  - unfold App.run. by rewrite foldl_app.
Qed.

(** X15. A drug added in the form with the dose or the frequency left at 0
    is never warned about, in any dataset and at any age: once cleaned by
    [extract], its total is undefined for [check]. *)
Theorem form_zero_never_warns (age_group : Z → string) (db : Database) (age : Z)
    (drug_name : string) (dose freq : Z) :
  dose = 0 ∨ freq = 0 →
  entry_warning age_group db age
    (Analyzer.clean db (App.form_entry drug_name dose freq)) = None.
Proof.
  intros Hzero. apply entry_warning_malformed. unfold absent_or_zero. simpl.
  unfold App.int_or_none.
  destruct Hzero as [-> | ->]; [left | right]; by left.
Qed.

Lemma form_zero_never_warns_witness :
  entry_warning Example.age_group Example.db 30
    (Analyzer.clean Example.db (App.form_entry "Paracetamol" 0 12)) = None.
Proof.
  apply (form_zero_never_warns Example.age_group Example.db 30 "Paracetamol" 0 12).
  by left.
Defined.

(** X16. What [extract] gets from the request of the form, when the fields
    "prescription_text" and "drugs" of the request are its two arguments: with
    at least one manual drug, the cleaned manual drugs, whatever the text;
    without manual drugs, nothing for a blank text and the list of the
    fallback parser for any other text. *)
Theorem form_request_extract (pipe : option (string → string + string))
    (parse_prescription : string → Database → list Entry) (db : Database)
    (age : Z) (text : string) (manual_drugs : list RawEntry) (token : string) :
  let request := App.payload age text manual_drugs token in
  let result := Analyzer.extract pipe parse_prescription db
                  (App.prescription_text request) (App.payload_drugs request) in
  (manual_drugs ≠ [] → result = Analyzer.clean db <$> manual_drugs)
  ∧ (manual_drugs = [] → Str.strip text = EmptyString → result = [])
  ∧ (manual_drugs = [] → Str.strip text ≠ EmptyString →
     result = parse_prescription text db).
Proof.
  cbv zeta. unfold App.payload. simpl. split; [| split].
  - intros Hne. by destruct manual_drugs.
  - intros -> Hblank. by rewrite bool_decide_true.
  - intros -> Htext. rewrite bool_decide_false by done.
    unfold Analyzer.extract.
    assert (Ht : Analyzer.truthy_text (Some text) = Some text).
    { destruct text; [done | done]. }
    rewrite Ht.
    replace (GraniteClient.nonempty_list (GraniteClient.extract_drug_info pipe text))
      with (@None (list Entry)); [done |].
    unfold GraniteClient.extract_drug_info.
    destruct pipe as [run |]; [| done]. by destruct (run _).
Qed.

Lemma form_request_extract_witness :
  Analyzer.extract None Example.parse_verbatim Example.db
    (App.prescription_text (App.payload 30 "   " [] ""))
    (App.payload_drugs (App.payload 30 "   " [] ""))
  = [].
Proof.
  apply (proj1 (proj2 (form_request_extract None Example.parse_verbatim Example.db
                         30 "   " [] ""))).
  - reflexivity.
  - reflexivity.
Defined.

(** ** [extract] followed by [check] *)

(** X17. A drug written under an alias in the explicit list is analysed
    under the name of its record: when the raw name of an explicit entry
    resolves to a non-empty name, the result of [check] on the extracted
    entries holds the dosage guidance and the alternatives of that name. *)
Theorem alias_gets_guidance_of_record (age_group : Z → string)
    (pipe : option (string → string + string))
    (parse_prescription : string → Database → list Entry) (db : Database)
    (text : option string) (explicit_drugs : list RawEntry) (age : Z)
    (raw : RawEntry) (c : string) :
  raw ∈ explicit_drugs →
  DrugDB.normalize db (default EmptyString (raw_drug raw)) = Some c →
  c ≠ EmptyString →
  let items := Analyzer.extract pipe parse_prescription db text (Some explicit_drugs) in
  let r := Analyzer.check age_group db items age in
  dosage_guidance r !! c = Some (guidance_for age_group db age c)
  ∧ result_alternatives r !! c = Some (DrugDB.alternatives db c).
Proof.
  intros Hraw Hc Hne. cbv zeta.
  assert (Hin : c ∈ drug <$> Analyzer.extract pipe parse_prescription db text
                               (Some explicit_drugs)).
  { destruct explicit_drugs as [| d ds]; [by apply elem_of_nil in Hraw |].
    unfold Analyzer.extract. apply list_elem_of_fmap.
    exists (Analyzer.clean db raw). split; [| by apply list_elem_of_fmap_2].
    unfold Analyzer.clean. simpl. rewrite Hc. simpl. by rewrite bool_decide_false. }
  rewrite check_guidance, check_alternatives. by rewrite !decide_True.
Qed.

Lemma alias_gets_guidance_of_record_witness :
  let items := Analyzer.extract None Example.parse_verbatim Example.db None
                 (Some [ {| raw_drug := Some " acetaminophen"%string;
                            raw_dose_mg := Some 500;
                            raw_frequency_per_day := Some 4 |} ]) in
  dosage_guidance (Analyzer.check Example.age_group Example.db items 8)
    !! "Paracetamol"%string
  = Some {| recommended_dose_for_age := Some "250mg q6h"%string;
            guidance_max_daily_mg := Some 2000 |}.
Proof.
  intros items.
  apply (alias_gets_guidance_of_record Example.age_group None Example.parse_verbatim
           Example.db None _ 8
           {| raw_drug := Some " acetaminophen"%string; raw_dose_mg := Some 500;
              raw_frequency_per_day := Some 4 |} "Paracetamol").
  - left.
  - vm_compute. reflexivity.
  - done.
Defined.
